(** * POV fan display: rotation tracking and line scheduling

    A shallow embedding of the core of [pov_fan_correct.py]:
    [check_hall_sensor] (edge detection, debounce, range validation,
    outlier rejection, trimmed-mean smoothing) and [display_current_line]
    (per-line output, busy-wait budget, overrun skipping, cursor wrap).

    Modelling choices:
    - microsecond quantities (Python ints) are [Z];
    - RPM values (Python floats) are IEEE 754 binary64 numbers, given by
      the Standard Library's [spec_float] with its rounding operations, so
      every rounding step of the code is reproduced;
    - the module-level globals form one record [state]; every function
      takes the state and returns the updated state;
    - the clock is injected: [check_hall_sensor] receives the reading of
      [get_time_micros()] and [display_current_line] receives the measured
      [update_time];
    - a Python exception (IndexError) is the [Raise] case of [result]. *)

From Stdlib Require Import ZArith QArith Qround Qabs List Bool Lia Lqa Floats.SpecFloat.
Import ListNotations.

Open Scope Z_scope.

(** ** Configuration constants *)

Record config := {
  NUM_LEDS : Z;
  LED_UPDATE_TIME_US : Z;
  DEFAULT_RPM : Z;
  MIN_RPM : Z;
  MAX_RPM : Z;
  NUM_DIVISIONS : Z;
  LINES_TO_SHIFT : Z;
  TIMING_MARGIN_US : Z;
  HALL_DEBOUNCE_US : Z;
  MAX_RPM_CHANGE_PERCENT : Z;
  RPM_HISTORY_SIZE : nat
}.

(** The values of the source file. *)
Definition cfg0 : config := {|
  NUM_LEDS := 72;
  LED_UPDATE_TIME_US := 2800;
  DEFAULT_RPM := 900;
  MIN_RPM := 250;
  MAX_RPM := 1400;
  NUM_DIVISIONS := 16;
  LINES_TO_SHIFT := -3;
  TIMING_MARGIN_US := 300;
  HALL_DEBOUNCE_US := 5000;
  MAX_RPM_CHANGE_PERCENT := 40;
  RPM_HISTORY_SIZE := 15
|}.

(** ** Python helpers *)

Inductive exn := IndexError.

Inductive result (A : Type) : Type :=
| Ok : A -> result A
| Raise : exn -> result A.
Arguments Ok {A} _.
Arguments Raise {A} _.

Definition bind {A B} (m : result A) (f : A -> result B) : result B :=
  match m with Ok a => f a | Raise e => Raise e end.

Notation "'let*' x ':=' m 'in' f" := (bind m (fun x => f))
  (at level 200, x pattern, m at level 100, f at level 200).

(** ** Python floats

    A Python float is a binary64 number: precision 53, exponent bound 1024,
    rounding to nearest with ties to even. *)
Definition float : Type := spec_float.
Definition fadd : float -> float -> float := SFadd 53 1024.
Definition fsub : float -> float -> float := SFsub 53 1024.
Definition fmul : float -> float -> float := SFmul 53 1024.
Definition fdiv : float -> float -> float := SFdiv 53 1024.
Definition fabs : float -> float := SFabs.
Definition fltb : float -> float -> bool := SFltb.
Definition fleb : float -> float -> bool := SFleb.

(** [float(n)] for an int [n], rounded to nearest (exact below 2^53). *)
Definition float_of_Z (n : Z) : float := binary_normalize 53 1024 n 0 false.

(** [a / b] for two ints: CPython converts both to doubles and divides
    when they fit in 53 bits, as every operand of this program does. *)
Definition py_truediv (a b : Z) : float := fdiv (float_of_Z a) (float_of_Z b).

(** [int(x)] for a float: truncation towards zero.  Python raises on an
    infinite or NaN argument; the program only applies [int()] to
    [60_000_000 / stable_rpm] with a positive finite [stable_rpm], and the
    model returns 0 in those cases. *)
Definition py_int_of_float (x : float) : Z :=
  match x with
  | S754_finite sx m e =>
      let v := if 0 <=? e then Z.shiftl (Zpos m) e else Z.shiftr (Zpos m) (- e) in
      if sx then - v else v
  | _ => 0
  end.

(** [sum(xs)] over floats: the int start value 0, then one rounded
    addition per element, left to right (CPython 3.11). *)
Definition fsum (xs : list float) : float := fold_left fadd xs (float_of_Z 0).

(** [sum(xs) / len(xs)]. *)
Definition fmean (xs : list float) : float :=
  fdiv (fsum xs) (float_of_Z (Z.of_nat (length xs))).

(** [sorted(xs)]: insertion sort on the numeric order. *)
Fixpoint finsert (x : float) (xs : list float) : list float :=
  match xs with
  | [] => [x]
  | y :: ys => if fleb x y then x :: y :: ys else y :: finsert x ys
  end.

Fixpoint fsort (xs : list float) : list float :=
  match xs with
  | [] => []
  | x :: xs' => finsert x (fsort xs')
  end.

(** The slice [xs[k:-k]] for [k >= 1]. *)
Definition py_slice_inner (k : nat) (xs : list float) : list float :=
  skipn k (firstn (length xs - k) xs).

(** [60_000_000 / x] for a float [x]. *)
Definition div60M (x : float) : float := fdiv (float_of_Z 60000000) x.

(** ** Program state: the module-level globals *)

Record state := {
  display_data : list (list Z);
  last_rotation_micros : Z;
  rotation_time_micros : Z;
  time_per_line_micros : Z;
  current_line : Z;
  rotation_active : bool;
  current_rpm : float;
  stable_rpm : float;
  rpm_history : list float;
  actual_line_time_us : Z;
  last_hall_state : bool;          (* GPIO.HIGH = true *)
  last_hall_trigger_time : Z;
  rotation_count : Z;
  valid_rotation_count : Z;
  missed_lines_count : Z;
  noise_rejected_count : Z;
  strip_pixels : list Z;           (* the driver's colour buffer *)
  strip_shown : list Z             (* what the LEDs display after show() *)
}.

(** Start-up values of the globals ([strip.begin()] clears the strip).
    [current_rpm] and [stable_rpm] start as the int [DEFAULT_RPM], which
    only the status prints read before a float replaces it. *)
Definition init_state (c : config) : state :=
  let rt := 60000000 / DEFAULT_RPM c in
  {| display_data := [];
     last_rotation_micros := 0;
     rotation_time_micros := rt;
     time_per_line_micros := rt / NUM_DIVISIONS c;
     current_line := 0;
     rotation_active := false;
     current_rpm := float_of_Z (DEFAULT_RPM c);
     stable_rpm := float_of_Z (DEFAULT_RPM c);
     rpm_history := [];
     actual_line_time_us := 0;
     last_hall_state := false;
     last_hall_trigger_time := 0;
     rotation_count := 0;
     valid_rotation_count := 0;
     missed_lines_count := 0;
     noise_rejected_count := 0;
     strip_pixels := repeat 0 (Z.to_nat (NUM_LEDS c));
     strip_shown := repeat 0 (Z.to_nat (NUM_LEDS c)) |}.

(** Assignment to one global ([global x; x = v]). *)
Definition set_display_data (v : list (list Z)) (s : state) : state :=
  Build_state v (last_rotation_micros s) (rotation_time_micros s) (time_per_line_micros s) (current_line s) (rotation_active s) (current_rpm s) (stable_rpm s) (rpm_history s) (actual_line_time_us s) (last_hall_state s) (last_hall_trigger_time s) (rotation_count s) (valid_rotation_count s) (missed_lines_count s) (noise_rejected_count s) (strip_pixels s) (strip_shown s).
Definition set_last_rotation_micros (v : Z) (s : state) : state :=
  Build_state (display_data s) v (rotation_time_micros s) (time_per_line_micros s) (current_line s) (rotation_active s) (current_rpm s) (stable_rpm s) (rpm_history s) (actual_line_time_us s) (last_hall_state s) (last_hall_trigger_time s) (rotation_count s) (valid_rotation_count s) (missed_lines_count s) (noise_rejected_count s) (strip_pixels s) (strip_shown s).
Definition set_rotation_time_micros (v : Z) (s : state) : state :=
  Build_state (display_data s) (last_rotation_micros s) v (time_per_line_micros s) (current_line s) (rotation_active s) (current_rpm s) (stable_rpm s) (rpm_history s) (actual_line_time_us s) (last_hall_state s) (last_hall_trigger_time s) (rotation_count s) (valid_rotation_count s) (missed_lines_count s) (noise_rejected_count s) (strip_pixels s) (strip_shown s).
Definition set_time_per_line_micros (v : Z) (s : state) : state :=
  Build_state (display_data s) (last_rotation_micros s) (rotation_time_micros s) v (current_line s) (rotation_active s) (current_rpm s) (stable_rpm s) (rpm_history s) (actual_line_time_us s) (last_hall_state s) (last_hall_trigger_time s) (rotation_count s) (valid_rotation_count s) (missed_lines_count s) (noise_rejected_count s) (strip_pixels s) (strip_shown s).
Definition set_current_line (v : Z) (s : state) : state :=
  Build_state (display_data s) (last_rotation_micros s) (rotation_time_micros s) (time_per_line_micros s) v (rotation_active s) (current_rpm s) (stable_rpm s) (rpm_history s) (actual_line_time_us s) (last_hall_state s) (last_hall_trigger_time s) (rotation_count s) (valid_rotation_count s) (missed_lines_count s) (noise_rejected_count s) (strip_pixels s) (strip_shown s).
Definition set_rotation_active (v : bool) (s : state) : state :=
  Build_state (display_data s) (last_rotation_micros s) (rotation_time_micros s) (time_per_line_micros s) (current_line s) v (current_rpm s) (stable_rpm s) (rpm_history s) (actual_line_time_us s) (last_hall_state s) (last_hall_trigger_time s) (rotation_count s) (valid_rotation_count s) (missed_lines_count s) (noise_rejected_count s) (strip_pixels s) (strip_shown s).
Definition set_current_rpm (v : float) (s : state) : state :=
  Build_state (display_data s) (last_rotation_micros s) (rotation_time_micros s) (time_per_line_micros s) (current_line s) (rotation_active s) v (stable_rpm s) (rpm_history s) (actual_line_time_us s) (last_hall_state s) (last_hall_trigger_time s) (rotation_count s) (valid_rotation_count s) (missed_lines_count s) (noise_rejected_count s) (strip_pixels s) (strip_shown s).
Definition set_stable_rpm (v : float) (s : state) : state :=
  Build_state (display_data s) (last_rotation_micros s) (rotation_time_micros s) (time_per_line_micros s) (current_line s) (rotation_active s) (current_rpm s) v (rpm_history s) (actual_line_time_us s) (last_hall_state s) (last_hall_trigger_time s) (rotation_count s) (valid_rotation_count s) (missed_lines_count s) (noise_rejected_count s) (strip_pixels s) (strip_shown s).
Definition set_rpm_history (v : list float) (s : state) : state :=
  Build_state (display_data s) (last_rotation_micros s) (rotation_time_micros s) (time_per_line_micros s) (current_line s) (rotation_active s) (current_rpm s) (stable_rpm s) v (actual_line_time_us s) (last_hall_state s) (last_hall_trigger_time s) (rotation_count s) (valid_rotation_count s) (missed_lines_count s) (noise_rejected_count s) (strip_pixels s) (strip_shown s).
Definition set_actual_line_time_us (v : Z) (s : state) : state :=
  Build_state (display_data s) (last_rotation_micros s) (rotation_time_micros s) (time_per_line_micros s) (current_line s) (rotation_active s) (current_rpm s) (stable_rpm s) (rpm_history s) v (last_hall_state s) (last_hall_trigger_time s) (rotation_count s) (valid_rotation_count s) (missed_lines_count s) (noise_rejected_count s) (strip_pixels s) (strip_shown s).
Definition set_last_hall_state (v : bool) (s : state) : state :=
  Build_state (display_data s) (last_rotation_micros s) (rotation_time_micros s) (time_per_line_micros s) (current_line s) (rotation_active s) (current_rpm s) (stable_rpm s) (rpm_history s) (actual_line_time_us s) v (last_hall_trigger_time s) (rotation_count s) (valid_rotation_count s) (missed_lines_count s) (noise_rejected_count s) (strip_pixels s) (strip_shown s).
Definition set_last_hall_trigger_time (v : Z) (s : state) : state :=
  Build_state (display_data s) (last_rotation_micros s) (rotation_time_micros s) (time_per_line_micros s) (current_line s) (rotation_active s) (current_rpm s) (stable_rpm s) (rpm_history s) (actual_line_time_us s) (last_hall_state s) v (rotation_count s) (valid_rotation_count s) (missed_lines_count s) (noise_rejected_count s) (strip_pixels s) (strip_shown s).
Definition set_rotation_count (v : Z) (s : state) : state :=
  Build_state (display_data s) (last_rotation_micros s) (rotation_time_micros s) (time_per_line_micros s) (current_line s) (rotation_active s) (current_rpm s) (stable_rpm s) (rpm_history s) (actual_line_time_us s) (last_hall_state s) (last_hall_trigger_time s) v (valid_rotation_count s) (missed_lines_count s) (noise_rejected_count s) (strip_pixels s) (strip_shown s).
Definition set_valid_rotation_count (v : Z) (s : state) : state :=
  Build_state (display_data s) (last_rotation_micros s) (rotation_time_micros s) (time_per_line_micros s) (current_line s) (rotation_active s) (current_rpm s) (stable_rpm s) (rpm_history s) (actual_line_time_us s) (last_hall_state s) (last_hall_trigger_time s) (rotation_count s) v (missed_lines_count s) (noise_rejected_count s) (strip_pixels s) (strip_shown s).
Definition set_missed_lines_count (v : Z) (s : state) : state :=
  Build_state (display_data s) (last_rotation_micros s) (rotation_time_micros s) (time_per_line_micros s) (current_line s) (rotation_active s) (current_rpm s) (stable_rpm s) (rpm_history s) (actual_line_time_us s) (last_hall_state s) (last_hall_trigger_time s) (rotation_count s) (valid_rotation_count s) v (noise_rejected_count s) (strip_pixels s) (strip_shown s).
Definition set_noise_rejected_count (v : Z) (s : state) : state :=
  Build_state (display_data s) (last_rotation_micros s) (rotation_time_micros s) (time_per_line_micros s) (current_line s) (rotation_active s) (current_rpm s) (stable_rpm s) (rpm_history s) (actual_line_time_us s) (last_hall_state s) (last_hall_trigger_time s) (rotation_count s) (valid_rotation_count s) (missed_lines_count s) v (strip_pixels s) (strip_shown s).
Definition set_strip_pixels (v : list Z) (s : state) : state :=
  Build_state (display_data s) (last_rotation_micros s) (rotation_time_micros s) (time_per_line_micros s) (current_line s) (rotation_active s) (current_rpm s) (stable_rpm s) (rpm_history s) (actual_line_time_us s) (last_hall_state s) (last_hall_trigger_time s) (rotation_count s) (valid_rotation_count s) (missed_lines_count s) (noise_rejected_count s) v (strip_shown s).
Definition set_strip_shown (v : list Z) (s : state) : state :=
  Build_state (display_data s) (last_rotation_micros s) (rotation_time_micros s) (time_per_line_micros s) (current_line s) (rotation_active s) (current_rpm s) (stable_rpm s) (rpm_history s) (actual_line_time_us s) (last_hall_state s) (last_hall_trigger_time s) (rotation_count s) (valid_rotation_count s) (missed_lines_count s) (noise_rejected_count s) (strip_pixels s) v.

(** ** check_hall_sensor *)

(** Lines 474-481: the smoothed RPM computed from the history. *)
Definition stable_estimate (rpm_history : list float) : float :=
  if (5 <=? length rpm_history)%nat then
    let sorted_rpm := fsort rpm_history in
    let trimmed := if (6 <? length sorted_rpm)%nat
                   then py_slice_inner 2 sorted_rpm
                   else py_slice_inner 1 sorted_rpm in
    match trimmed with
    | [] => fmean sorted_rpm
    | _ :: _ => fmean trimmed
    end
  else fmean rpm_history.

(** Lines 468-470: [rpm_history.append(x)], then [pop(0)] when too long. *)
Definition push_history (size : nat) (rpm_history : list float) (x : float) : list float :=
  let h := rpm_history ++ [x] in
  if (size <? length h)%nat then tl h else h.

(** Lines 437-440: the absolute range check (int() of a positive float
    quotient is the floor division). *)
Definition period_in_range (c : config) (measured_rotation_time : Z) : bool :=
  let min_rotation_time := 60000000 / MAX_RPM c in
  let max_rotation_time := 60000000 / MIN_RPM c in
  (min_rotation_time <=? measured_rotation_time)
  && (measured_rotation_time <=? max_rotation_time).

(** Lines 455-458: the relative-jump (outlier) test, in floats.  Python
    compares the float with the int [MAX_RPM_CHANGE_PERCENT] exactly, as
    [fltb] does with its (exactly representable) float. *)
Definition rpm_outlier (c : config) (rpm_history : list float) (instant_rpm : float) : bool :=
  let avg_rpm := fmean rpm_history in
  let rpm_change_percent :=
    fmul (fdiv (fabs (fsub instant_rpm avg_rpm)) avg_rpm) (float_of_Z 100) in
  fltb (float_of_Z (MAX_RPM_CHANGE_PERCENT c)) rpm_change_percent.

(** Which path of [check_hall_sensor] a call took. *)
Inductive hall_outcome :=
| NoEdge         (* no low->high transition *)
| Debounced      (* lines 425-428 *)
| FirstEdge      (* no previous rotation timestamp: lines 501-505 only *)
| RangeInvalid   (* lines 440-448 *)
| Outlier        (* lines 458-465 *)
| Accepted.      (* lines 467-505 *)

(** The calls that get past the debounce: a revolution-start event. *)
Definition is_revolution_event (o : hall_outcome) : bool :=
  match o with
  | NoEdge | Debounced => false
  | FirstEdge | RangeInvalid | Outlier | Accepted => true
  end.

(** Lines 442-448 (and 460-465): reset the position, keep the timing. *)
Definition reject_timing (current_state : bool) (current_time : Z) (s : state) : state :=
  let s := set_noise_rejected_count (noise_rejected_count s + 1) s in
  let s := set_last_hall_state current_state s in
  let s := set_current_line 0 s in
  let s := set_rotation_count (rotation_count s + 1) s in
  set_last_rotation_micros current_time s.

(** Lines 468-491: insert a valid reading and recompute the timing. *)
Definition accept_period (c : config) (instant_rpm : float) (s : state) : state :=
  let hist := push_history (RPM_HISTORY_SIZE c) (rpm_history s) instant_rpm in
  let s := set_rpm_history hist s in
  let s := set_valid_rotation_count (valid_rotation_count s + 1) s in
  let stable := stable_estimate hist in
  let s := set_stable_rpm stable s in
  let s := set_current_rpm stable s in
  let rt := py_int_of_float (div60M stable) in
  let s := set_rotation_time_micros rt s in
  let tpl := rt / NUM_DIVISIONS c in
  let tpl := if tpl <? LED_UPDATE_TIME_US c then LED_UPDATE_TIME_US c else tpl in
  set_time_per_line_micros tpl s.

(** Lines 502-505 and 514: phase reset to line 0. *)
Definition phase_reset (current_state : bool) (current_time : Z) (s : state) : state :=
  let s := set_current_line 0 s in
  let s := set_rotation_active true s in
  let s := set_rotation_count (rotation_count s + 1) s in
  let s := set_last_rotation_micros current_time s in
  set_last_hall_state current_state s.

(** Lines 402-514.  [current_state] is [GPIO.input(HALL_SENSOR_PIN)] and
    [current_time] the reading of [get_time_micros()]. *)
Definition check_hall_sensor (c : config) (current_state : bool) (current_time : Z)
    (s : state) : state * hall_outcome :=
  if current_state && negb (last_hall_state s) then
    let time_since_last := current_time - last_hall_trigger_time s in
    if time_since_last <? HALL_DEBOUNCE_US c then
      let s := set_last_hall_state current_state s in
      (set_noise_rejected_count (noise_rejected_count s + 1) s, Debounced)
    else
      let s := set_last_hall_trigger_time current_time s in
      if 0 <? last_rotation_micros s then
        let measured_rotation_time := current_time - last_rotation_micros s in
        if negb (period_in_range c measured_rotation_time) then
          (reject_timing current_state current_time s, RangeInvalid)
        else
          let instant_rpm := py_truediv 60000000 measured_rotation_time in
          if (3 <=? length (rpm_history s))%nat
             && rpm_outlier c (rpm_history s) instant_rpm then
            (reject_timing current_state current_time s, Outlier)
          else
            (phase_reset current_state current_time (accept_period c instant_rpm s),
             Accepted)
      else (phase_reset current_state current_time s, FirstEdge)
  else (set_last_hall_state current_state s, NoEdge).

(** ** display_current_line *)

(** [strip.setPixelColor(n, color)]: the driver's buffer raises IndexError
    outside the strip. *)
Fixpoint list_set {A} (l : list A) (n : nat) (v : A) : option (list A) :=
  match l, n with
  | [], _ => None
  | _ :: t, O => Some (v :: t)
  | h :: t, S n' => option_map (cons h) (list_set t n' v)
  end.

Definition setPixelColor (n : nat) (color : Z) (buf : list Z) : result (list Z) :=
  match list_set buf n color with
  | Some buf' => Ok buf'
  | None => Raise IndexError
  end.

(** Lines 539-540: [for i in range(NUM_LEDS): strip.setPixelColor(i, line_data[i])],
    from index [i] on, [fuel] iterations left. *)
Fixpoint set_line_pixels (line_data : list Z) (i fuel : nat) (buf : list Z)
    : result (list Z) :=
  match fuel with
  | O => Ok buf
  | S fuel' =>
      match nth_error line_data i with
      | None => Raise IndexError
      | Some col =>
          let* buf' := setPixelColor i col buf in
          set_line_pixels line_data (S i) fuel' buf'
      end
  end.

(** Lines 537-541: write the line to the strip and [strip.show()]. *)
Definition output_line (c : config) (line_to_show : Z) (s : state) : result state :=
  let dd := display_data s in
  if negb (match dd with [] => true | _ :: _ => false end)
     && (line_to_show <? Z.of_nat (length dd)) then
    let line_data := nth (Z.to_nat line_to_show) dd [] in
    let* buf := set_line_pixels line_data 0 (Z.to_nat (NUM_LEDS c)) (strip_pixels s) in
    Ok (set_strip_shown buf (set_strip_pixels buf s))
  else Ok s.

(** Lines 519-566.  [update_time] is the measured duration of the LED
    update (line 544); the second component of the result is the length of
    the busy-wait of lines 550-554 (0 when there is none). *)
Definition display_current_line (c : config) (update_time : Z) (s : state)
    : result (state * Z) :=
  if negb (rotation_active s) || (time_per_line_micros s <=? 0) then Ok (s, 0)
  else
    let N := NUM_DIVISIONS c in
    let line_to_show := (current_line s + LINES_TO_SHIFT c + N) mod N in
    let* s := output_line c line_to_show s in
    let s := set_actual_line_time_us update_time s in
    let remaining := time_per_line_micros s - update_time - TIMING_MARGIN_US c in
    let '(wait, s) :=
      if 0 <? remaining then (remaining, s)
      else if remaining <? -1000 then
        let lines_to_skip := (- remaining) / time_per_line_micros s in
        if 0 <? lines_to_skip then
          let s := set_current_line (current_line s + lines_to_skip) s in
          (0, set_missed_lines_count (missed_lines_count s + lines_to_skip) s)
        else (0, s)
      else (0, s) in
    let cl := current_line s + 1 in
    let cl := if N <=? cl then 0 else cl in
    Ok (set_current_line cl s, wait).

(** ** The main loop *)

(** One call made by the [while True] loop of [main] (lines 629-632):
    [check_buttons] (which only assigns [display_data]),
    [check_hall_sensor] or [display_current_line]. *)
Inductive event :=
| ModeChange (data : list (list Z))
| HallPoll (level : bool) (now : Z)
| DisplayLine (update_time : Z).

Inductive observation :=
| ObsMode
| ObsHall (o : hall_outcome)
| ObsLine (wait : Z).

Definition step (c : config) (e : event) (s : state) : result (state * observation) :=
  match e with
  | ModeChange d => Ok (set_display_data d s, ObsMode)
  | HallPoll level now =>
      let '(s', o) := check_hall_sensor c level now s in Ok (s', ObsHall o)
  | DisplayLine u =>
      let* r := display_current_line c u s in
      Ok (fst r, ObsLine (snd r))
  end.

Fixpoint run (c : config) (evs : list event) (s : state)
    : result (state * list observation) :=
  match evs with
  | [] => Ok (s, [])
  | e :: evs' =>
      let* r1 := step c e s in
      let* r2 := run c evs' (fst r1) in
      Ok (fst r2, snd r1 :: snd r2)
  end.

(** The states the program can be in between two calls. *)
Definition reachable (c : config) (s : state) : Prop :=
  exists evs obs, run c evs (init_state c) = Ok (s, obs).

(** ** Auxiliary definitions used in the statements *)

(** The extra lines skipped by lines 555-561 for a given [remaining]. *)
Definition overrun_skip (tpl remaining : Z) : Z :=
  if 0 <? remaining then 0
  else if remaining <? -1000 then
    (if 0 <? (- remaining) / tpl then (- remaining) / tpl else 0)
  else 0.

(** Lines 564-566. *)
Definition wrap_line (c : config) (cl : Z) : Z :=
  if NUM_DIVISIONS c <=? cl then 0 else cl.

(** The timing state that an invalid measurement must leave alone. *)
Definition timing (s : state) : list float * float * float * Z * Z :=
  (rpm_history s, stable_rpm s, current_rpm s,
   rotation_time_micros s, time_per_line_micros s).

(** The spec's trimmed mean: sort, drop [k] samples from each end
    ([k = 1] for at most 6 samples, [k = 2] otherwise), average the rest,
    plain mean when nothing is left. *)
Definition drop_back (k : nat) (xs : list float) : list float := rev (skipn k (rev xs)).

Definition trimmed_mean_spec (h : list float) : float :=
  let k := if (length h <=? 6)%nat then 1%nat else 2%nat in
  match drop_back k (skipn k (fsort h)) with
  | [] => fmean h
  | (_ :: _) as trimmed => fmean trimmed
  end.

(** The mean in exact arithmetic. *)
Definition mean_exact (xs : list Q) : Q :=
  fold_left Qplus xs 0%Q / inject_Z (Z.of_nat (length xs)).

(** The spec's outlier condition, in exact arithmetic: the jump exceeds
    the percentage. *)
Definition outlier_spec (c : config) (rpm_history : list Q) (instant_rpm : Q) : Prop :=
  (inject_Z (MAX_RPM_CHANGE_PERCENT c)
   < Qabs (instant_rpm - mean_exact rpm_history) / mean_exact rpm_history * inject_Z 100)%Q.

(** The spec's range condition, with the exact rational bounds. *)
Definition period_valid_spec (c : config) (p : Z) : Prop :=
  (inject_Z 60000000 / inject_Z (MAX_RPM c) <= inject_Z p
   /\ inject_Z p <= inject_Z 60000000 / inject_Z (MIN_RPM c))%Q.

(** The line index of line 531. *)
Definition line_to_show (c : config) (s : state) : Z :=
  (current_line s + LINES_TO_SHIFT c + NUM_DIVISIONS c) mod NUM_DIVISIONS c.

(** The spec's sample histories. *)
Definition history7 : list float := map float_of_Z [800; 810; 820; 830; 840; 1200; 790].
Definition history3 : list float := map float_of_Z [900; 905; 898].

(** The clock readings [get_time_micros()] can deliver: [perf_counter] is
    the monotonic clock counted from boot, and the script has already run
    (sleeping 0.5 s at line 119) before the first reading, so every reading
    of [check_hall_sensor] is at least [HALL_DEBOUNCE_US] (5000us). *)
Definition clock_after_debounce (c : config) (evs : list event) : Prop :=
  Forall (fun e => match e with
                   | HallPoll _ now => HALL_DEBOUNCE_US c <= now
                   | _ => True
                   end) evs.

(** A strip with every LED off. *)
Definition blank_strip (c : config) : list Z := repeat 0 (Z.to_nat (NUM_LEDS c)).

(** ** Frame generation, button polling and shutdown *)

(** [range(a, b)] over ints. *)
Definition zrange (a b : Z) : list Z :=
  map (fun k => a + Z.of_nat k) (seq 0 (Z.to_nat (b - a))).

(** [int(x)] of a float: truncation towards zero. *)
Definition py_int (x : Q) : Z :=
  if Qle_bool 0 x then Qfloor x else - Qfloor (- x).

(** [BRIGHTNESS_RATIO = 0.8] (line 61).  For the channel values [0..255]
    the float product [x * 0.8] truncates to the same int as the exact
    rational one ([brightness_float_agrees] below). *)
Definition BRIGHTNESS_RATIO : Q := Qmake 8 10.

(** The float [0.8]: the binary64 number nearest to 8/10. *)
Definition BRIGHTNESS_RATIO_float : float := fdiv (float_of_Z 8) (float_of_Z 10).

(** [Color(red, green, blue, white=0)] of rpi_ws281x:
    [(white << 24) | (red << 16) | (green << 8) | blue]. *)
Definition Color (red green blue : Z) : Z :=
  Z.lor (Z.lor (Z.lor (Z.shiftl 0 24) (Z.shiftl red 16)) (Z.shiftl green 8)) blue.

(** The colour every shape function writes for a lit LED:
    [Color(int(g * BRIGHTNESS_RATIO), int(r * BRIGHTNESS_RATIO),
    int(b * BRIGHTNESS_RATIO))] (green and red are swapped for the
    WS2815's GRB order). *)
Definition scaled_color (rgb : Z * Z * Z) : Z :=
  let '(r, g, b) := rgb in
  Color (py_int (inject_Z g * BRIGHTNESS_RATIO)%Q)
        (py_int (inject_Z r * BRIGHTNESS_RATIO)%Q)
        (py_int (inject_Z b * BRIGHTNESS_RATIO)%Q).

(** [line[i] = v]; the shape functions only assign after checking
    [0 <= i < NUM_LEDS = len(line)]. *)
Definition py_assign (l : list Z) (i v : Z) : list Z :=
  match list_set l (Z.to_nat i) v with Some l' => l' | None => l end.

(** Lines 149-184. *)
Definition generate_circle_data (c : config) (radius_leds : Z) (color_rgb : Z * Z * Z)
    : list (list Z) :=
  let center_led := NUM_LEDS c / 2 in
  let col := scaled_color color_rgb in
  let circle_thickness := Z.max 3 (7 - NUM_DIVISIONS c / 5) in
  let draw line offset :=
    let led_pos_1 := center_led - radius_leds + offset in
    let led_pos_2 := center_led + radius_leds + offset in
    let line := if (0 <=? led_pos_1) && (led_pos_1 <? NUM_LEDS c)
                then py_assign line led_pos_1 col else line in
    if (0 <=? led_pos_2) && (led_pos_2 <? NUM_LEDS c)
    then py_assign line led_pos_2 col else line in
  map (fun angle_idx =>
         let line := repeat (Color 0 0 0) (Z.to_nat (NUM_LEDS c)) in
         if radius_leds <? NUM_LEDS c / 2 then
           fold_left draw (zrange ((- circle_thickness) / 2) (circle_thickness / 2 + 1)) line
         else line)
      (zrange 0 (NUM_DIVISIONS c)).

(** Lines 332-339: [for bit in range(8)] for one byte. *)
Definition set_byte_bits (c : config) (col byte_val byte_idx : Z) (line : list Z)
    : list Z :=
  fold_left (fun line bit =>
      let led_pos := byte_idx * 8 + bit in
      if led_pos <? NUM_LEDS c then
        if Z.land byte_val (Z.shiftl 1 (7 - bit)) =? 0 then line
        else py_assign line led_pos col
      else line)
    (zrange 0 8) line.

(** Lines 328-339: [for byte_idx in ...]; [binary_data[slice_idx][byte_idx]]
    raises IndexError on a row shorter than the first one. *)
Fixpoint decode_bytes (c : config) (col : Z) (row : list Z) (byte_idxs : list Z)
    (line : list Z) : result (list Z) :=
  match byte_idxs with
  | [] => Ok line
  | byte_idx :: rest =>
      match nth_error row (Z.to_nat byte_idx) with
      | None => Raise IndexError
      | Some byte_val => decode_bytes c col row rest (set_byte_bits c col byte_val byte_idx line)
      end
  end.

(** Lines 325-341: one line per row of [binary_data]. *)
Fixpoint decode_slices (c : config) (col bytes_per_line : Z) (rows : list (list Z))
    : result (list (list Z)) :=
  match rows with
  | [] => Ok []
  | row :: rows' =>
      let* line := decode_bytes c col row (zrange 0 bytes_per_line)
                     (repeat (Color 0 0 0) (Z.to_nat (NUM_LEDS c))) in
      let* data := decode_slices c col bytes_per_line rows' in
      Ok (line :: data)
  end.

(** Lines 343-345: append blank lines up to [NUM_DIVISIONS]. *)
Definition pad_blank (c : config) (data : list (list Z)) : list (list Z) :=
  data ++ repeat (repeat (Color 0 0 0) (Z.to_nat (NUM_LEDS c)))
                 (Z.to_nat (NUM_DIVISIONS c - Z.of_nat (length data))).

(** Lines 300-347. *)
Definition load_binary_image_data (c : config) (binary_data : list (list Z))
    (color_rgb : Z * Z * Z) : result (list (list Z)) :=
  let col := scaled_color color_rgb in
  let bytes_per_line := match binary_data with
                        | [] => 0
                        | row0 :: _ => Z.of_nat (length row0) end in
  let* data := decode_slices c col bytes_per_line binary_data in
  Ok (pad_blank c data).

(** Lines 352-369. *)
Definition Image_1 : list (list Z) :=
  [[0xFF; 0xFF; 0x1E; 0x7E; 0x7E; 0x3E; 0x7C; 0xFF; 0xFF];
   [0xFF; 0xFF; 0xF1; 0xC3; 0xFC; 0xF3; 0xCF; 0xFF; 0xFF];
   [0xFF; 0xFF; 0xFC; 0xFF; 0xFC; 0xE7; 0x9F; 0xFF; 0xFF];
   [0xFF; 0xFF; 0xF1; 0xE0; 0x7C; 0xF3; 0xCF; 0xFF; 0xFF];
   [0xFF; 0xFF; 0x1F; 0x1F; 0x3E; 0x7C; 0x7C; 0x7F; 0xFF];
   [0xFF; 0xFF; 0xF3; 0xE0; 0x7C; 0xF7; 0xCF; 0xFF; 0xFF];
   [0xFF; 0xFF; 0xFC; 0xFF; 0xFC; 0xE7; 0x1F; 0xFF; 0xFF];
   [0xFF; 0xFF; 0xF9; 0xC1; 0xFC; 0xF3; 0xCF; 0xFF; 0xFF];
   [0xFF; 0xFF; 0x3E; 0x7C; 0x7E; 0x7E; 0x78; 0xFF; 0xFF];
   [0xFF; 0xFF; 0xF3; 0xCF; 0x3F; 0xC3; 0x8F; 0xFF; 0xFF];
   [0xFF; 0xFF; 0xF9; 0xE7; 0x3F; 0xFF; 0x3F; 0xFF; 0xFF];
   [0xFF; 0xFF; 0xF3; 0xCF; 0x3E; 0x07; 0x8F; 0xFF; 0xFF];
   [0xFF; 0xFE; 0x3E; 0x3E; 0x7C; 0xF8; 0xF8; 0xFF; 0xFF];
   [0xFF; 0xFF; 0xF3; 0xEF; 0x3E; 0x07; 0xCF; 0xFF; 0xFF];
   [0xFF; 0xFF; 0xF8; 0xE7; 0x3F; 0xFF; 0x3F; 0xFF; 0xFF];
   [0xFF; 0xFF; 0xF3; 0xCF; 0x3F; 0x83; 0x9F; 0xFF; 0xFF]].

(** Lines 135-139: [clear_strip()], from LED [i] on, [fuel] LEDs left. *)
Fixpoint clear_pixels (i fuel : nat) (buf : list Z) : result (list Z) :=
  match fuel with
  | O => Ok buf
  | S fuel' =>
      let* buf' := setPixelColor i (Color 0 0 0) buf in
      clear_pixels (S i) fuel' buf'
  end.

Definition clear_strip (c : config) (s : state) : result state :=
  let* buf := clear_pixels 0 (Z.to_nat (NUM_LEDS c)) (strip_pixels s) in
  Ok (set_strip_shown buf (set_strip_pixels buf s)).

(** The values [current_mode] takes (line 79 and lines 381-383). *)
Inductive mode := circle | square | image.

Definition BUTTON_CIRCLE : Z := 17.
Definition BUTTON_SQUARE : Z := 27.
Definition BUTTON_IMAGE : Z := 22.

(** [DEBOUNCE_TIME = 0.3] seconds (line 105). *)
Definition DEBOUNCE_TIME : Q := Qmake 3 10.

(** The button globals of lines 79 and 103-104; the dicts keyed by pin are
    functions from the pin number ([GPIO.HIGH = true]). *)
Record buttons_state := {
  current_mode : mode;
  last_button_states : Z -> bool;
  last_button_time : Z -> Q
}.

Definition buttons_init : buttons_state :=
  {| current_mode := circle;
     last_button_states := fun _ => true;
     last_button_time := fun _ => 0%Q |}.

(** [d[k] = v]. *)
Definition upd {A} (f : Z -> A) (k : Z) (v : A) : Z -> A :=
  fun k' => if k' =? k then v else f k'.

(** One row of the [buttons] table: pin, mode name and the value of
    [mode_func()]. *)
Definition button_entry : Type := Z * mode * result (list (list Z)).

(** Lines 386-397: the loop over the table.  [current_time] is the reading
    of [time.time()] and [read pin] that of [GPIO.input(pin)]. *)
Fixpoint poll_buttons (current_time : Q) (read : Z -> bool) (entries : list button_entry)
    (bs : buttons_state) (s : state) : result (buttons_state * state) :=
  match entries with
  | [] => Ok (bs, s)
  | (button_pin, mode_name, mode_func) :: rest =>
      let current_state := read button_pin in
      let* r :=
        if negb current_state && last_button_states bs button_pin
           && negb (Qle_bool (current_time - last_button_time bs button_pin) DEBOUNCE_TIME)
        then
          let* d := mode_func in
          Ok (Build_buttons_state mode_name (last_button_states bs)
                (upd (last_button_time bs) button_pin current_time),
              set_display_data d s)
        else Ok (bs, s) in
      let '(bs, s) := r in
      let bs := Build_buttons_state (current_mode bs)
                  (upd (last_button_states bs) button_pin current_state)
                  (last_button_time bs) in
      poll_buttons current_time read rest bs s
  end.

(** Lines 380-384; [square_data] is the value of
    [generate_square_data(side_length_leds=24, color_rgb=(255, 0, 255))],
    which is computed with floating-point trigonometry. *)
Definition buttons_table (c : config) (square_data : result (list (list Z)))
    : list button_entry :=
  [(BUTTON_CIRCLE, circle, Ok (generate_circle_data c 28 (0, 255, 255)));
   (BUTTON_SQUARE, square, square_data);
   (BUTTON_IMAGE, image, load_binary_image_data c Image_1 (0, 255, 255))].

(** Lines 375-397. *)
Definition check_buttons (c : config) (square_data : result (list (list Z)))
    (current_time : Q) (read : Z -> bool) (bs : buttons_state) (s : state)
    : result (buttons_state * state) :=
  poll_buttons current_time read (buttons_table c square_data) bs s.

(** Which calls of [check_hall_sensor] count as noise (lines 427, 443
    and 461) and which as a valid rotation (line 471). *)
Definition is_noise_rejection (o : hall_outcome) : bool :=
  match o with Debounced | RangeInvalid | Outlier => true | _ => false end.

Definition is_accepted (o : hall_outcome) : bool :=
  match o with Accepted => true | _ => false end.

(** The number of hall observations of a trace satisfying [p]. *)
Definition count_hall (p : hall_outcome -> bool) (obs : list observation) : Z :=
  Z.of_nat (length (filter (fun ob => match ob with ObsHall o => p o | _ => false end) obs)).

(** The bookkeeping of [check_hall_sensor] on the RPM history: its size
    and where its entries come from. *)
Definition hist_ok (c : config) (s : state) : Prop :=
  (length (rpm_history s) <= RPM_HISTORY_SIZE c)%nat
  /\ (forall x, In x (rpm_history s) ->
        exists m, period_in_range c m = true /\ x = py_truediv 60000000 m).

(** The fields of a row of the [buttons] table of [check_buttons], and the
    condition under which that button fires in a poll. *)
Definition entry_pin (e : button_entry) : Z := fst (fst e).
Definition entry_mode (e : button_entry) : mode := snd (fst e).
Definition entry_data (e : button_entry) : result (list (list Z)) := snd e.

Definition button_fires (current_time : Q) (read : Z -> bool) (bs : buttons_state)
    (e : button_entry) : bool :=
  negb (read (entry_pin e)) && last_button_states bs (entry_pin e)
  && negb (Qle_bool (current_time - last_button_time bs (entry_pin e)) DEBOUNCE_TIME).

(** ** Concrete runs and auxiliary definitions for the proofs *)

Definition inv (c : config) (s : state) : Prop :=
  0 <= current_line s < NUM_DIVISIONS c
  /\ (0 < last_rotation_micros s -> rotation_active s = true).

Definition run_ok (c : config) (evs : list event) : bool :=
  match run c evs (init_state c) with Ok _ => true | Raise _ => false end.

Definition run_final (c : config) (evs : list event) : state :=
  match run c evs (init_state c) with Ok (s, _) => s | Raise _ => init_state c end.

Definition ok_or {A} (d : A) (r : result A) : A :=
  match r with Ok a => a | Raise _ => d end.

(** A circle-like frame: 16 lines of 72 LEDs with one LED lit. *)
Definition demo_frame : list (list Z) :=
  repeat (repeat 0 35 ++ [65280] ++ repeat 0 36) 16.

(** Start the display, see one revolution edge, and draw 14 lines that each
    leave time for a busy-wait. *)
Definition demo_trace : list event :=
  [ModeChange demo_frame; HallPoll true 100000; HallPoll false 100001]
  ++ repeat (DisplayLine 3000) 14.

Definition demo_state : state := run_final cfg0 demo_trace.

(** The program after one edge at 100000 and a sensor low reading; a new edge
    at 130000 measures 30000us (2000 RPM), which is out of range. *)
Definition one_edge_state : state :=
  run_final cfg0 [HallPoll true 100000; HallPoll false 100001].

(** Three accepted revolutions of 75000us, 75000us and 60000us after a
    first edge: the history is [800; 800; 1000] RPM. *)
Definition three_samples_trace : list event :=
  [HallPoll true 100000; HallPoll false 100001;
   HallPoll true 175000; HallPoll false 175001;
   HallPoll true 250000; HallPoll false 250001;
   HallPoll true 310000].

Definition run_obs (c : config) (evs : list event) : list observation :=
  match run c evs (init_state c) with Ok (_, obs) => obs | Raise _ => [] end.

(** Three accepted periods of 60018us after a first edge. *)
Definition boundary_trace : list event :=
  [HallPoll true 1000000; HallPoll false 1000001;
   HallPoll true 1060018; HallPoll false 1060019;
   HallPoll true 1120036; HallPoll false 1120037;
   HallPoll true 1180054; HallPoll false 1180055].

(** Three accepted periods of 66667us (about 900 RPM) after a first edge. *)
Definition steady_trace : list event :=
  [HallPoll true 100000; HallPoll false 100001;
   HallPoll true 166667; HallPoll false 166668;
   HallPoll true 233334; HallPoll false 233335;
   HallPoll true 300001; HallPoll false 300002].

(** Frame data is replaced by an empty list after [demo_trace] has lit the
    strip. *)
Definition cleared_frame_state : state :=
  run_final cfg0 (demo_trace ++ [ModeChange []]).

Lemma brightness_float_agrees x :
  0 <= x <= 255 ->
  py_int_of_float (fmul (float_of_Z x) BRIGHTNESS_RATIO_float)
  = py_int (inject_Z x * BRIGHTNESS_RATIO)%Q.
Proof.
  intro Hx.
  assert (Hall : forallb (fun y => Z.eqb (py_int_of_float (fmul (float_of_Z y) BRIGHTNESS_RATIO_float))
                                        (py_int (inject_Z y * BRIGHTNESS_RATIO)%Q))
                         (zrange 0 256) = true) by (vm_compute; reflexivity).
  rewrite forallb_forall in Hall.
  apply Z.eqb_eq, Hall. unfold zrange. apply in_map_iff.
  exists (Z.to_nat x). split; [lia|]. apply in_seq. lia.
Qed.

Lemma output_line_shape c l s s' :
  output_line c l s = Ok s' ->
  exists p sh, s' = set_strip_shown sh (set_strip_pixels p s).
Proof.
  unfold output_line. destruct (_ && _).
  - destruct (set_line_pixels _ _ _ _) as [buf|e]; simpl; intro H; inversion H.
    eauto.
  - intro H; inversion H; subst. exists (strip_pixels s'), (strip_shown s').
    destruct s'; reflexivity.
Qed.

Lemma display_shape c u s s' w :
  display_current_line c u s = Ok (s', w) ->
  ((rotation_active s = false \/ time_per_line_micros s <= 0) /\ s' = s /\ w = 0)
  \/ (rotation_active s = true /\ 0 < time_per_line_micros s /\
      exists p sh,
        let so := set_actual_line_time_us u (set_strip_shown sh (set_strip_pixels p s)) in
        let rem := time_per_line_micros s - u - TIMING_MARGIN_US c in
        let k := overrun_skip (time_per_line_micros s) rem in
        output_line c (line_to_show c s) s = Ok (set_strip_shown sh (set_strip_pixels p s))
        /\ s' = set_current_line (wrap_line c (current_line s + k + 1))
                 (set_missed_lines_count (missed_lines_count s + k) so)
        /\ w = (if 0 <? rem then rem else 0)).
Proof.
  unfold display_current_line.
  destruct (negb (rotation_active s) || (time_per_line_micros s <=? 0)) eqn:Hact.
  - intro H; inversion H; subst; left; split; auto.
    apply orb_true_iff in Hact as [Ha|Ht]; [left; now apply negb_true_iff|].
    right; now apply Z.leb_le.
  - apply orb_false_iff in Hact as [Ha Ht].
    apply negb_false_iff in Ha. apply Z.leb_gt in Ht.
    destruct (output_line c _ s) as [so|e] eqn:Ho; simpl; [|discriminate].
    destruct (output_line_shape _ _ _ _ Ho) as (p & sh & ->).
    intro H; right; split; [exact Ha|split; [exact Ht|]].
    exists p, sh. cbn zeta.
    unfold overrun_skip, wrap_line, line_to_show in *.
    cbn [time_per_line_micros current_line missed_lines_count set_actual_line_time_us
         set_strip_shown set_strip_pixels] in *.
    split; [reflexivity|].
    remember (time_per_line_micros s - u - TIMING_MARGIN_US c) as rem eqn:Hrem.
    destruct (0 <? rem);
      [|destruct (rem <? -1000); [destruct (0 <? - rem / time_per_line_micros s)|]];
      inversion H; subst; rewrite ?Z.add_0_r; split; reflexivity.
Qed.

Lemma hall_shape c lvl now s s' o :
  check_hall_sensor c lvl now s = (s', o) ->
  let st := set_last_hall_trigger_time now s in
  let m := now - last_rotation_micros s in
  let instant := py_truediv 60000000 m in
  match o with
  | NoEdge => (lvl = false \/ last_hall_state s = true) /\ s' = set_last_hall_state lvl s
  | Debounced =>
      lvl = true /\ last_hall_state s = false /\ now - last_hall_trigger_time s < HALL_DEBOUNCE_US c
      /\ s' = set_noise_rejected_count (noise_rejected_count s + 1) (set_last_hall_state true s)
  | FirstEdge =>
      lvl = true /\ last_hall_state s = false /\ HALL_DEBOUNCE_US c <= now - last_hall_trigger_time s
      /\ last_rotation_micros s <= 0 /\ s' = phase_reset true now st
  | RangeInvalid =>
      lvl = true /\ last_hall_state s = false /\ HALL_DEBOUNCE_US c <= now - last_hall_trigger_time s
      /\ 0 < last_rotation_micros s /\ period_in_range c m = false
      /\ s' = reject_timing true now st
  | Outlier =>
      lvl = true /\ last_hall_state s = false /\ HALL_DEBOUNCE_US c <= now - last_hall_trigger_time s
      /\ 0 < last_rotation_micros s /\ period_in_range c m = true
      /\ (3 <= length (rpm_history s))%nat /\ rpm_outlier c (rpm_history s) instant = true
      /\ s' = reject_timing true now st
  | Accepted =>
      lvl = true /\ last_hall_state s = false /\ HALL_DEBOUNCE_US c <= now - last_hall_trigger_time s
      /\ 0 < last_rotation_micros s /\ period_in_range c m = true
      /\ ((length (rpm_history s) < 3)%nat \/ rpm_outlier c (rpm_history s) instant = false)
      /\ s' = phase_reset true now (accept_period c instant st)
  end.
Proof.
  unfold check_hall_sensor; intro H; cbv zeta.
  destruct lvl, (last_hall_state s) eqn:Hl; cbn [andb negb] in H;
    try (inversion H; subst; auto; fail).
  destruct (now - last_hall_trigger_time s <? HALL_DEBOUNCE_US c) eqn:Hd.
  { inversion H; subst. apply Z.ltb_lt in Hd. auto 6. }
  apply Z.ltb_ge in Hd. cbn [last_rotation_micros set_last_hall_trigger_time] in H.
  destruct (0 <? last_rotation_micros s) eqn:Hr.
  2:{ inversion H; subst. apply Z.ltb_ge in Hr. auto 6. }
  apply Z.ltb_lt in Hr.
  cbn [rpm_history set_last_hall_trigger_time] in H.
  destruct (period_in_range c (now - last_rotation_micros s)) eqn:Hp; cbn [negb] in H.
  2:{ inversion H; subst. auto 8. }
  destruct (3 <=? length (rpm_history s))%nat eqn:H3; cbn [andb] in H.
  - apply Nat.leb_le in H3.
    destruct (rpm_outlier c (rpm_history s) (py_truediv 60000000 (now - last_rotation_micros s))) eqn:Ho;
      inversion H; subst; repeat split; auto.
  - apply Nat.leb_gt in H3. inversion H; subst; repeat split; auto.
Qed.

(** ** Invariants of the reachable states *)

Lemma overrun_skip_nonneg tpl rem : 0 <= overrun_skip tpl rem.
Proof.
  unfold overrun_skip.
  destruct (0 <? rem); [lia|].
  destruct (rem <? -1000); [|lia].
  destruct (0 <? - rem / tpl) eqn:E; [apply Z.ltb_lt in E|]; lia.
Qed.

Lemma wrap_line_range c x :
  1 <= NUM_DIVISIONS c -> 0 <= x -> 0 <= wrap_line c x < NUM_DIVISIONS c.
Proof.
  unfold wrap_line; intros HN Hx.
  destruct (NUM_DIVISIONS c <=? x) eqn:E;
    [|apply Z.leb_gt in E]; lia.
Qed.

Lemma init_inv c : 1 <= NUM_DIVISIONS c -> inv c (init_state c).
Proof. intro HN; unfold inv; simpl; split; [lia | intro Hr; lia]. Qed.

Lemma hall_inv c lvl now s s' o :
  inv c s -> check_hall_sensor c lvl now s = (s', o) -> inv c s'.
Proof.
  intros [Hcl Hact] H. apply hall_shape in H.
  unfold inv in *.
  destruct o; cbv zeta in H; decompose record H; subst;
    cbn; auto; split; try lia; auto.
Qed.

Lemma display_inv c u s s' w :
  1 <= NUM_DIVISIONS c -> inv c s ->
  display_current_line c u s = Ok (s', w) -> inv c s'.
Proof.
  intros HN [Hcl Hact] H. apply display_shape in H.
  destruct H as [(_ & -> & _) | (Ha & Ht & p & sh & _ & -> & _)]; [split; auto|].
  unfold inv; cbn. split; [|auto].
  apply wrap_line_range; [exact HN|].
  pose proof (overrun_skip_nonneg (time_per_line_micros s)
               (time_per_line_micros s - u - TIMING_MARGIN_US c)); lia.
Qed.

Lemma step_inv c e s s' ob :
  1 <= NUM_DIVISIONS c -> inv c s -> step c e s = Ok (s', ob) -> inv c s'.
Proof.
  intros HN Hi. destruct e as [d | lvl now | u]; simpl.
  - intro H; inversion H; subst. exact Hi.
  - destruct (check_hall_sensor c lvl now s) as [s1 o] eqn:E.
    intro H; inversion H; subst. eapply hall_inv; eauto.
  - destruct (display_current_line c u s) as [[s1 w]|e] eqn:E; simpl;
      [|discriminate].
    intro H; inversion H; subst. eapply display_inv; eauto.
Qed.

Lemma run_inv c evs : forall s s' obs,
  1 <= NUM_DIVISIONS c -> inv c s -> run c evs s = Ok (s', obs) -> inv c s'.
Proof.
  induction evs as [|e evs IH]; simpl; intros s s' obs HN Hi H.
  - inversion H; subst; exact Hi.
  - destruct (step c e s) as [[s1 ob]|x] eqn:E1; simpl in H; [|discriminate].
    destruct (run c evs s1) as [[s2 obs2]|x] eqn:E2; simpl in H; [|discriminate].
    inversion H; subst. eapply IH; [exact HN| |exact E2].
    eapply step_inv; eauto.
Qed.

Lemma reachable_inv c s : 1 <= NUM_DIVISIONS c -> reachable c s -> inv c s.
Proof.
  intros HN (evs & obs & H). eapply run_inv; eauto using init_inv.
Qed.

(** ** Running concrete traces *)

Lemma run_final_reachable c evs : run_ok c evs = true -> reachable c (run_final c evs).
Proof.
  unfold run_ok, run_final, reachable.
  destruct (run c evs (init_state c)) as [[s obs]|e] eqn:E; [|discriminate].
  intros _; exists evs, obs; exact E.
Qed.

Lemma demo_state_reachable : reachable cfg0 demo_state.
Proof. apply run_final_reachable; vm_compute; reflexivity. Qed.


Lemma wrap_line_succ c x :
  0 <= x < NUM_DIVISIONS c -> wrap_line c (x + 1) = (x + 1) mod NUM_DIVISIONS c.
Proof.
  unfold wrap_line; intro H.
  destruct (NUM_DIVISIONS c <=? x + 1) eqn:E.
  - apply Z.leb_le in E. replace (x + 1) with (NUM_DIVISIONS c) by lia.
    rewrite Z.mod_same by lia. reflexivity.
  - apply Z.leb_gt in E. rewrite Z.mod_small; lia.
Qed.

(** ** C8: the cursor stays in range *)

(** C8.  In every state the program can reach (any interleaving of
    revolution edges with their phase reset, per-line advances and overrun
    skips of any size, frame changes), for any [NUM_DIVISIONS >= 1], the
    cursor [current_line] lies in [0, NUM_DIVISIONS), and so does the
    displayed index [(current_line + LINES_TO_SHIFT + NUM_DIVISIONS) mod
    NUM_DIVISIONS]. *)
Theorem cursor_index_in_range (c : config) (s : state) :
  1 <= NUM_DIVISIONS c -> reachable c s ->
  0 <= current_line s < NUM_DIVISIONS c
  /\ 0 <= line_to_show c s < NUM_DIVISIONS c.
Proof.
  intros HN Hr. destruct (reachable_inv c s HN Hr) as [Hcl _].
  split; [exact Hcl|]. unfold line_to_show. apply Z.mod_pos_bound. lia.
Qed.

Lemma cursor_index_in_range_witness :
  0 <= current_line demo_state < 16 /\ 0 <= line_to_show cfg0 demo_state < 16.
Proof.
  apply (cursor_index_in_range cfg0 demo_state).
  - vm_compute; discriminate.
  - exact demo_state_reachable.
Defined.

(** ** C10: a small lag neither waits nor skips *)

(** C10.  When [display_current_line] runs (rotation active, positive line
    time) and [remaining = time_per_line - update_time - TIMING_MARGIN_US]
    lies in [-1000, 0], there is no busy-wait, no line is skipped, the
    cursor advances by exactly one modulo [NUM_DIVISIONS], and the
    missed-lines counter is unchanged. *)
Theorem small_lag_advances_by_one (c : config) (u : Z) (s s' : state) (w : Z) :
  1 <= NUM_DIVISIONS c -> reachable c s ->
  rotation_active s = true -> 0 < time_per_line_micros s ->
  -1000 <= time_per_line_micros s - u - TIMING_MARGIN_US c <= 0 ->
  display_current_line c u s = Ok (s', w) ->
  w = 0
  /\ current_line s' = (current_line s + 1) mod NUM_DIVISIONS c
  /\ missed_lines_count s' = missed_lines_count s.
Proof.
  intros HN Hr Ha Ht Hrem H.
  destruct (reachable_inv c s HN Hr) as [Hcl _].
  apply display_shape in H.
  destruct H as [([Hf|Hf] & _) | (_ & _ & p & sh & _ & -> & ->)];
    [congruence | lia |].
  unfold overrun_skip.
  remember (time_per_line_micros s - u - TIMING_MARGIN_US c) as rem.
  replace (0 <? rem) with false by (symmetry; apply Z.ltb_ge; lia).
  replace (rem <? -1000) with false by (symmetry; apply Z.ltb_ge; lia).
  cbn. rewrite Z.add_0_r, Z.add_0_r. split; [reflexivity|].
  split; [apply wrap_line_succ; exact Hcl | reflexivity].
Qed.

Lemma small_lag_advances_by_one_witness :
  let s := demo_state in
  let r := ok_or (s, 0) (display_current_line cfg0 4000 s) in
  snd r = 0
  /\ current_line (fst r) = (current_line s + 1) mod 16
  /\ missed_lines_count (fst r) = missed_lines_count s.
Proof.
  intros s r.
  apply (small_lag_advances_by_one cfg0 4000 s (fst r) (snd r)).
  - vm_compute; discriminate.
  - exact demo_state_reachable.
  - vm_compute; reflexivity.
  - vm_compute; reflexivity.
  - vm_compute; split; discriminate.
  - vm_compute; reflexivity.
Defined.

(** ** C3: an invalid period still resets the phase *)

(** C3.  On a revolution-start event whose measured period (a previous
    rotation timestamp exists) fails the range check or the outlier check,
    the revolution counter increments, the cursor resets to 0, rotation is
    active afterwards, the previous-event timestamp becomes [now], and the
    timing state (history, stable and current RPM, rotation time, time per
    line) is unchanged. *)
Theorem invalid_period_keeps_phase_reset
    (c : config) (lvl : bool) (now : Z) (s s' : state) (o : hall_outcome) :
  1 <= NUM_DIVISIONS c -> reachable c s ->
  check_hall_sensor c lvl now s = (s', o) ->
  o = RangeInvalid \/ o = Outlier ->
  0 < last_rotation_micros s
  /\ rotation_count s' = rotation_count s + 1
  /\ current_line s' = 0
  /\ rotation_active s' = true
  /\ last_rotation_micros s' = now
  /\ timing s' = timing s.
Proof.
  intros HN Hr H Ho.
  destruct (reachable_inv c s HN Hr) as [_ Hact].
  apply hall_shape in H.
  destruct Ho as [-> | ->]; cbv zeta in H;
    destruct H as (_ & _ & _ & Hlast & _ & H);
    [| destruct H as (_ & _ & H)];
    subst; cbn; repeat split; auto.
Qed.

Lemma invalid_period_keeps_phase_reset_witness :
  let r := check_hall_sensor cfg0 true 130000 one_edge_state in
  0 < last_rotation_micros one_edge_state
  /\ rotation_count (fst r) = rotation_count one_edge_state + 1
  /\ current_line (fst r) = 0
  /\ rotation_active (fst r) = true
  /\ last_rotation_micros (fst r) = 130000
  /\ timing (fst r) = timing one_edge_state.
Proof.
  intro r.
  apply (invalid_period_keeps_phase_reset cfg0 true 130000 one_edge_state (fst r) (snd r)).
  - vm_compute; discriminate.
  - apply run_final_reachable; vm_compute; reflexivity.
  - vm_compute; reflexivity.
  - left; vm_compute; reflexivity.
Defined.

(** ** C1: overrun skip across the end of the revolution *)

(** C1 (the claim fails on the code).  From [demo_state] (cursor on line
    14 of 16, line time 4166us) an LED update of 16364us gives
    [remaining = -12498], hence [lines_to_skip = 12498 / 4166 = 3]: the
    missed-lines counter grows by 3, but lines 564-566 reset the cursor to
    0 because [14 + 3 + 1 >= 16], where advancing by [1 + 3] modulo 16
    gives 2. *)
Theorem overrun_skip_lost_at_wrap :
  let s := demo_state in
  let r := ok_or (s, 0) (display_current_line cfg0 16364 s) in
  current_line s = 14
  /\ time_per_line_micros s = 4166
  /\ time_per_line_micros s - 16364 - TIMING_MARGIN_US cfg0 = -12498
  /\ 12498 / time_per_line_micros s = 3
  /\ display_current_line cfg0 16364 s = Ok r
  /\ missed_lines_count (fst r) = missed_lines_count s + 3
  /\ current_line (fst r) = 0
  /\ (current_line s + 1 + 3) mod NUM_DIVISIONS cfg0 = 2.
Proof. vm_compute. repeat split; reflexivity. Qed.

(** ** C2: the smoothed RPM *)

Lemma finsert_length x l : length (finsert x l) = S (length l).
Proof.
  induction l as [|y l IH]; simpl; [reflexivity|].
  destruct (fleb x y); simpl; [reflexivity|]. rewrite IH; reflexivity.
Qed.

Lemma fsort_length l : length (fsort l) = length l.
Proof.
  induction l as [|x l IH]; simpl; [reflexivity|].
  rewrite finsert_length, IH; reflexivity.
Qed.

Lemma py_slice_inner_drop_back k l :
  py_slice_inner k l = drop_back k (skipn k l).
Proof.
  unfold py_slice_inner, drop_back.
  rewrite skipn_firstn_comm, skipn_rev, rev_involutive, length_skipn.
  f_equal; lia.
Qed.

Lemma drop_back_length k l : length (drop_back k l) = (length l - k)%nat.
Proof. unfold drop_back. rewrite length_rev, length_skipn, length_rev. reflexivity. Qed.

Lemma stable_estimate_small h :
  (length h < 5)%nat -> stable_estimate h = fmean h.
Proof.
  intro H. unfold stable_estimate.
  replace (5 <=? length h)%nat with false by (symmetry; apply Nat.leb_gt; exact H).
  reflexivity.
Qed.

Lemma stable_estimate_trimmed h :
  (5 <= length h)%nat -> stable_estimate h = trimmed_mean_spec h.
Proof.
  intro H. unfold stable_estimate, trimmed_mean_spec.
  replace (5 <=? length h)%nat with true by (symmetry; apply Nat.leb_le; exact H).
  rewrite fsort_length.
  assert (Hk : exists k, (if (6 <? length h)%nat then py_slice_inner 2 (fsort h)
                          else py_slice_inner 1 (fsort h))
                         = drop_back k (skipn k (fsort h))
                      /\ (if (length h <=? 6)%nat then 1%nat else 2%nat) = k
                      /\ (2 * k < length h)%nat).
  { destruct (6 <? length h)%nat eqn:E.
    - apply Nat.ltb_lt in E. exists 2%nat.
      replace (length h <=? 6)%nat with false by (symmetry; apply Nat.leb_gt; lia).
      rewrite py_slice_inner_drop_back. repeat split; lia.
    - apply Nat.ltb_ge in E. exists 1%nat.
      replace (length h <=? 6)%nat with true by (symmetry; apply Nat.leb_le; lia).
      rewrite py_slice_inner_drop_back. repeat split; lia. }
  destruct Hk as (k & -> & -> & Hlen).
  destruct (drop_back k (skipn k (fsort h))) as [|x t] eqn:E; [|reflexivity].
  apply (f_equal (@length float)) in E.
  rewrite drop_back_length, length_skipn, fsort_length in E. simpl in E. lia.
Qed.

(** C2 (as amended).  Whenever a raw period is accepted, its RPM is
    appended to the history (oldest dropped beyond [RPM_HISTORY_SIZE]) and
    the new stable RPM is: the plain mean of the history when it holds
    fewer than 5 samples; otherwise the spec's trimmed mean (sort, drop 1
    from each end for at most 6 samples, 2 for more, average the rest;
    the trimmed set is then never empty).  Means are computed as the code
    computes them, [sum(xs) / len(xs)] in floats.  For the 7-sample history
    [800,810,820,830,840,1200,790] this is the mean of 810, 820, 830, which
    is exactly 820. *)
Theorem accepted_period_trimmed_mean
    (c : config) (lvl : bool) (now : Z) (s s' : state) :
  check_hall_sensor c lvl now s = (s', Accepted) ->
  rpm_history s' = push_history (RPM_HISTORY_SIZE c) (rpm_history s)
                     (py_truediv 60000000 (now - last_rotation_micros s))
  /\ ((length (rpm_history s') < 5)%nat -> stable_rpm s' = fmean (rpm_history s'))
  /\ ((5 <= length (rpm_history s'))%nat ->
      stable_rpm s' = trimmed_mean_spec (rpm_history s'))
  /\ stable_estimate (history7)
     = trimmed_mean_spec (history7)
  /\ stable_estimate (history7) = fmean (map float_of_Z [810; 820; 830])
  /\ fmean (map float_of_Z [810; 820; 830]) = float_of_Z 820.
Proof.
  intro H. apply hall_shape in H. cbv zeta in H.
  destruct H as (_ & _ & _ & _ & _ & _ & ->).
  cbn [phase_reset accept_period rpm_history stable_rpm set_last_hall_state
       set_last_rotation_micros set_rotation_count set_rotation_active
       set_current_line set_time_per_line_micros set_rotation_time_micros
       set_current_rpm set_stable_rpm set_valid_rotation_count set_rpm_history
       set_last_hall_trigger_time].
  split; [reflexivity|].
  split; [apply stable_estimate_small|].
  split; [apply stable_estimate_trimmed|].
  split; [apply stable_estimate_trimmed; simpl; lia|].
  split; vm_compute; reflexivity.
Qed.

Lemma accepted_period_trimmed_mean_witness :
  let s := run_final cfg0 (removelast three_samples_trace) in
  let r := check_hall_sensor cfg0 true 310000 s in
  rpm_history (fst r) = push_history 15 (rpm_history s) (py_truediv 60000000 60000)
  /\ ((length (rpm_history (fst r)) < 5)%nat ->
      stable_rpm (fst r) = fmean (rpm_history (fst r)))
  /\ ((5 <= length (rpm_history (fst r)))%nat ->
      stable_rpm (fst r) = trimmed_mean_spec (rpm_history (fst r)))
  /\ stable_estimate (history7)
     = trimmed_mean_spec (history7)
  /\ stable_estimate (history7) = fmean (map float_of_Z [810; 820; 830])
  /\ fmean (map float_of_Z [810; 820; 830]) = float_of_Z 820.
Proof.
  intros s r.
  apply (accepted_period_trimmed_mean cfg0 true 310000 s (fst r)).
  vm_compute; reflexivity.
Defined.

(** C2 (the claim as stated fails).  After [three_samples_trace] the last
    period is accepted and the history holds 3 samples; the code's stable
    RPM is their plain mean, the float 2600 / 3, not the trimmed mean 800 that dropping
    one sample from each end gives. *)
Lemma trimmed_mean_small_history_counterexample :
  let s := run_final cfg0 three_samples_trace in
  run_ok cfg0 three_samples_trace = true
  /\ last (run_obs cfg0 three_samples_trace) ObsMode = ObsHall Accepted
  /\ length (rpm_history s) = 3%nat
  /\ stable_rpm s = py_truediv 2600 3
  /\ trimmed_mean_spec (rpm_history s) = float_of_Z 800
  /\ stable_rpm s <> trimmed_mean_spec (rpm_history s).
Proof.
  vm_compute. repeat split; try reflexivity. discriminate.
Qed.

(** ** C6: the absolute range check *)

Lemma period_in_range_iff c p :
  period_in_range c p = true <->
  60000000 / MAX_RPM c <= p <= 60000000 / MIN_RPM c.
Proof.
  unfold period_in_range. rewrite andb_true_iff, !Z.leb_le. tauto.
Qed.

(** C6 (as amended).  On a revolution-start event with a previous
    timestamp, the measured period [p] is range-invalid iff it lies outside
    the integer bounds [60_000_000 // MAX_RPM, 60_000_000 // MIN_RPM]
    (42857..240000 for the configured 1400 and 250 RPM); only periods within
    them reach the outlier check and the history; an invalid one leaves the
    history unchanged.  30000us is invalid and 66667us valid. *)
Theorem range_check_integer_bounds (c : config) (now : Z) (s s' : state) (o : hall_outcome) :
  last_hall_state s = false ->
  HALL_DEBOUNCE_US c <= now - last_hall_trigger_time s ->
  0 < last_rotation_micros s ->
  check_hall_sensor c true now s = (s', o) ->
  let p := now - last_rotation_micros s in
  (o = RangeInvalid <-> ~ (60000000 / MAX_RPM c <= p <= 60000000 / MIN_RPM c))
  /\ (o = Outlier \/ o = Accepted -> 60000000 / MAX_RPM c <= p <= 60000000 / MIN_RPM c)
  /\ (o = RangeInvalid -> rpm_history s' = rpm_history s)
  /\ period_in_range cfg0 30000 = false
  /\ period_in_range cfg0 66667 = true.
Proof.
  intros Hl Hd Hr H p.
  assert (Hcfg : period_in_range cfg0 30000 = false /\ period_in_range cfg0 66667 = true)
    by (split; reflexivity).
  apply hall_shape in H. cbv zeta in H. fold p in H.
  destruct o; cbv zeta in H.
  - destruct H as [[Hf|Hf] _]; congruence.
  - destruct H as (_ & _ & Hf & _); lia.
  - destruct H as (_ & _ & _ & Hf & _); lia.
  - destruct H as (_ & _ & _ & _ & Hp & ->).
    assert (~ (60000000 / MAX_RPM c <= p <= 60000000 / MIN_RPM c)).
    { rewrite <- period_in_range_iff. congruence. }
    split; [tauto|]. split; [intros [Hf|Hf]; discriminate|].
    split; [intros _; reflexivity|]. exact Hcfg.
  - destruct H as (_ & _ & _ & _ & Hp & _).
    apply period_in_range_iff in Hp.
    split; [split; [discriminate | intro Hn; contradiction]|].
    split; [intros _; exact Hp|]. split; [discriminate|]. exact Hcfg.
  - destruct H as (_ & _ & _ & _ & Hp & _).
    apply period_in_range_iff in Hp.
    split; [split; [discriminate | intro Hn; contradiction]|].
    split; [intros _; exact Hp|]. split; [discriminate|]. exact Hcfg.
Qed.

Lemma range_check_integer_bounds_witness :
  let r := check_hall_sensor cfg0 true 130000 one_edge_state in
  let p := 130000 - last_rotation_micros one_edge_state in
  (snd r = RangeInvalid <-> ~ (60000000 / 1400 <= p <= 60000000 / 250))
  /\ (snd r = Outlier \/ snd r = Accepted -> 60000000 / 1400 <= p <= 60000000 / 250)
  /\ (snd r = RangeInvalid -> rpm_history (fst r) = rpm_history one_edge_state)
  /\ period_in_range cfg0 30000 = false
  /\ period_in_range cfg0 66667 = true.
Proof.
  intros r p.
  apply (range_check_integer_bounds cfg0 130000 one_edge_state (fst r) (snd r)).
  - vm_compute; reflexivity.
  - vm_compute; discriminate.
  - vm_compute; reflexivity.
  - vm_compute; reflexivity.
Defined.

(** C6 (the claim as stated fails).  A period of 42857us lies below the
    exact bound 60_000_000 / 1400 = 42857.14..., yet the integer bound
    [int(60_000_000 / MAX_RPM) = 42857] lets it through: the edge at 142857
    after the one at 100000 is accepted into the history. *)
Lemma range_bound_truncated_counterexample :
  let r := check_hall_sensor cfg0 true 142857 one_edge_state in
  142857 - last_rotation_micros one_edge_state = 42857
  /\ ~ period_valid_spec cfg0 42857
  /\ period_in_range cfg0 42857 = true
  /\ snd r = Accepted.
Proof.
  split; [vm_compute; reflexivity|]. split; [|split; vm_compute; reflexivity].
  unfold period_valid_spec. intros [H _]. vm_compute in H. apply H. reflexivity.
Qed.

(** ** C7: outlier rejection *)

(** C7 (as amended).  On a revolution-start event whose period is
    range-valid and with at least 3 samples in the history, the
    instantaneous RPM [instant = 60_000_000 / period] is rejected as an
    outlier iff the percentage [abs(instant - mean) / mean * 100], with
    [mean = sum(history) / len(history)] and every operation rounded as the
    code's floats round it, exceeds [MAX_RPM_CHANGE_PERCENT].  A rejected
    sample is counted as noise and not inserted; any other is accepted into
    the history.  With history [900,905,898] and 40%, 1500 RPM is rejected
    and 950 RPM accepted. *)
Theorem outlier_rejection (c : config) (now : Z) (s s' : state) (o : hall_outcome) :
  last_hall_state s = false ->
  HALL_DEBOUNCE_US c <= now - last_hall_trigger_time s ->
  0 < last_rotation_micros s ->
  period_in_range c (now - last_rotation_micros s) = true ->
  (3 <= length (rpm_history s))%nat ->
  check_hall_sensor c true now s = (s', o) ->
  let instant := py_truediv 60000000 (now - last_rotation_micros s) in
  (o = Outlier <->
     fltb (float_of_Z (MAX_RPM_CHANGE_PERCENT c))
          (fmul (fdiv (fabs (fsub instant (fmean (rpm_history s)))) (fmean (rpm_history s)))
                (float_of_Z 100)) = true)
  /\ (o = Outlier ->
      rpm_history s' = rpm_history s
      /\ noise_rejected_count s' = noise_rejected_count s + 1)
  /\ (o <> Outlier ->
      o = Accepted
      /\ rpm_history s' = push_history (RPM_HISTORY_SIZE c) (rpm_history s) instant)
  /\ rpm_outlier cfg0 history3 (float_of_Z 1500) = true
  /\ rpm_outlier cfg0 history3 (float_of_Z 950) = false.
Proof.
  intros Hl Hd Hr Hp H3 H instant.
  assert (Hex : rpm_outlier cfg0 history3 (float_of_Z 1500) = true
                /\ rpm_outlier cfg0 history3 (float_of_Z 950) = false)
    by (split; vm_compute; reflexivity).
  apply hall_shape in H. fold instant in H. cbv zeta in H.
  unfold rpm_outlier in H. cbv zeta in H.
  destruct o.
  - destruct H as [[Hf|Hf] _]; congruence.
  - destruct H as (_ & _ & Hf & _); lia.
  - destruct H as (_ & _ & _ & Hf & _); lia.
  - destruct H as (_ & _ & _ & _ & Hf & _); congruence.
  - destruct H as (_ & _ & _ & _ & _ & _ & Ho & ->).
    split; [split; [intros _; exact Ho | intros _; reflexivity]|].
    split; [intros _; split; reflexivity|].
    split; [intro Hn; contradiction|]. exact Hex.
  - destruct H as (_ & _ & _ & _ & _ & [Hf|Ho] & ->); [lia|].
    split; [split; [discriminate | intro Hc; congruence]|].
    split; [discriminate|]. split; [intros _; split; reflexivity|]. exact Hex.
Qed.

Lemma outlier_rejection_witness :
  let s := run_final cfg0 steady_trace in
  let r := check_hall_sensor cfg0 true 366668 s in
  let instant := py_truediv 60000000 (366668 - last_rotation_micros s) in
  (snd r = Outlier <->
     fltb (float_of_Z (MAX_RPM_CHANGE_PERCENT cfg0))
          (fmul (fdiv (fabs (fsub instant (fmean (rpm_history s)))) (fmean (rpm_history s)))
                (float_of_Z 100)) = true)
  /\ (snd r = Outlier ->
      rpm_history (fst r) = rpm_history s
      /\ noise_rejected_count (fst r) = noise_rejected_count s + 1)
  /\ (snd r <> Outlier ->
      snd r = Accepted
      /\ rpm_history (fst r) = push_history 15 (rpm_history s) instant)
  /\ rpm_outlier cfg0 history3 (float_of_Z 1500) = true
  /\ rpm_outlier cfg0 history3 (float_of_Z 950) = false.
Proof.
  intros s r instant.
  apply (outlier_rejection cfg0 366668 s (fst r) (snd r)).
  - vm_compute; reflexivity.
  - vm_compute; discriminate.
  - vm_compute; reflexivity.
  - vm_compute; reflexivity.
  - vm_compute; apply le_n.
  - vm_compute; reflexivity.
Defined.

(** C7 (the claim as stated fails).  After a first edge and three accepted
    periods of 60018us, the history holds three samples [60_000_000 / 60018].
    A period of 42870us then is a jump of exactly 40% (60018 / 42870 = 1.4),
    which the exact test does not reject; the code's float percentage is
    40.000000000000014 and the sample is rejected as an outlier. *)
Lemma outlier_boundary_counterexample :
  let s := run_final cfg0 boundary_trace in
  let r := check_hall_sensor cfg0 true 1222924 s in
  run_ok cfg0 boundary_trace = true
  /\ rpm_history s = repeat (py_truediv 60000000 60018) 3
  /\ 1222924 - last_rotation_micros s = 42870
  /\ period_in_range cfg0 42870 = true
  /\ ~ outlier_spec cfg0 (repeat (inject_Z 60000000 / inject_Z 60018)%Q 3)
                         (inject_Z 60000000 / inject_Z 42870)%Q
  /\ snd r = Outlier.
Proof.
  intros s r.
  split; [vm_compute; reflexivity|]. split; [vm_compute; reflexivity|].
  split; [vm_compute; reflexivity|]. split; [vm_compute; reflexivity|].
  split; [|vm_compute; reflexivity].
  unfold outlier_spec. intro H. apply Qlt_not_le in H. apply H.
  apply Qle_bool_iff. vm_compute. reflexivity.
Qed.

(** ** C4: debounce *)

Lemma display_keeps_trigger_time c u s s' w :
  display_current_line c u s = Ok (s', w) ->
  last_hall_trigger_time s' = last_hall_trigger_time s.
Proof.
  intro H. apply display_shape in H.
  destruct H as [(_ & -> & _) | (_ & _ & p & sh & _ & -> & _)]; reflexivity.
Qed.

(** C4 (as amended).  A call of [check_hall_sensor] reports a
    revolution-start event iff the reading goes low->high and at least
    [HALL_DEBOUNCE_US] microseconds have passed since the last trigger that
    got past the debounce; such an event records its time as the new
    reference, while no other call (nor [display_current_line]) moves the
    reference.  A rising edge less than [HALL_DEBOUNCE_US] after the
    reference is rejected: it only increments the noise counter by 1 and
    records the sensor level. *)
Theorem debounce_classification (c : config) (lvl : bool) (now : Z) (s : state) :
  let r := check_hall_sensor c lvl now s in
  (is_revolution_event (snd r) = true <->
   lvl = true /\ last_hall_state s = false
   /\ HALL_DEBOUNCE_US c <= now - last_hall_trigger_time s)
  /\ (is_revolution_event (snd r) = true -> last_hall_trigger_time (fst r) = now)
  /\ (is_revolution_event (snd r) = false ->
      last_hall_trigger_time (fst r) = last_hall_trigger_time s)
  /\ (lvl = true -> last_hall_state s = false ->
      now - last_hall_trigger_time s < HALL_DEBOUNCE_US c ->
      snd r = Debounced
      /\ fst r = set_noise_rejected_count (noise_rejected_count s + 1)
                   (set_last_hall_state true s))
  /\ (forall u s2 w, display_current_line c u s = Ok (s2, w) ->
      last_hall_trigger_time s2 = last_hall_trigger_time s).
Proof.
  intro r. unfold r.
  destruct (check_hall_sensor c lvl now s) as [s' o] eqn:E. cbn [fst snd].
  assert (Hdisp : forall u s2 w, display_current_line c u s = Ok (s2, w) ->
                  last_hall_trigger_time s2 = last_hall_trigger_time s)
    by (intros; eapply display_keeps_trigger_time; eauto).
  apply hall_shape in E. cbv zeta in E.
  destruct o; cbn [is_revolution_event].
  - destruct E as [Hn ->].
    split; [split; [discriminate | intros (H1 & H2 & _); destruct Hn; congruence]|].
    split; [discriminate|]. split; [reflexivity|].
    split; [intros H1 H2; destruct Hn; congruence|]. exact Hdisp.
  - destruct E as (-> & Hl & Hd & ->).
    split; [split; [discriminate | intros (_ & _ & Hf); lia]|].
    split; [discriminate|]. split; [reflexivity|].
    split; [intros _ _ _; split; reflexivity|]. exact Hdisp.
  - destruct E as (-> & Hl & Hd & _ & ->).
    split; [tauto|]. split; [reflexivity|]. split; [discriminate|].
    split; [intros _ _ Hf; lia|]. exact Hdisp.
  - destruct E as (-> & Hl & Hd & _ & _ & ->).
    split; [tauto|]. split; [reflexivity|]. split; [discriminate|].
    split; [intros _ _ Hf; lia|]. exact Hdisp.
  - destruct E as (-> & Hl & Hd & _ & _ & _ & _ & ->).
    split; [tauto|]. split; [reflexivity|]. split; [discriminate|].
    split; [intros _ _ Hf; lia|]. exact Hdisp.
  - destruct E as (-> & Hl & Hd & _ & _ & _ & ->).
    split; [tauto|]. split; [reflexivity|]. split; [discriminate|].
    split; [intros _ _ Hf; lia|]. exact Hdisp.
Qed.

(** C4 (the claim as stated fails).  After an edge at 100000 and a low
    reading, a rising edge at 105000 comes exactly [HALL_DEBOUNCE_US] after
    the last accepted trigger, so the elapsed time does not exceed the
    threshold; the code still reports a revolution-start event (the
    debounce rejects only [time_since_last < HALL_DEBOUNCE_US]). *)
Lemma debounce_boundary_counterexample :
  let r := check_hall_sensor cfg0 true 105000 one_edge_state in
  last_hall_state one_edge_state = false
  /\ 105000 - last_hall_trigger_time one_edge_state = HALL_DEBOUNCE_US cfg0
  /\ ~ (105000 - last_hall_trigger_time one_edge_state > HALL_DEBOUNCE_US cfg0)
  /\ is_revolution_event (snd r) = true.
Proof.
  vm_compute. split; [reflexivity|]. split; [reflexivity|].
  split; [discriminate | reflexivity].
Qed.

(** ** C5: missing frame data *)

Lemma output_line_missing c l s :
  display_data s = [] \/ Z.of_nat (length (display_data s)) <= l ->
  output_line c l s = Ok s.
Proof.
  unfold output_line. intros [He | Hl].
  - rewrite He. reflexivity.
  - replace (l <? Z.of_nat (length (display_data s))) with false
      by (symmetry; apply Z.ltb_ge; exact Hl).
    rewrite andb_false_r. reflexivity.
Qed.

(** C5 (as amended).  While rotation is active (with a positive line
    time), if [display_data] is empty or has no entry for the displayed line
    index, [display_current_line] writes no pixel and does not call
    [strip.show()]: the strip buffer and the LEDs keep what they held (the
    previously shown line stays lit, nothing is blanked).  The call returns
    normally and the cursor logic runs as usual. *)
Theorem missing_frame_line_leaves_strip (c : config) (u : Z) (s : state) :
  rotation_active s = true -> 0 < time_per_line_micros s ->
  display_data s = [] \/ Z.of_nat (length (display_data s)) <= line_to_show c s ->
  exists s' w,
    display_current_line c u s = Ok (s', w)
    /\ strip_pixels s' = strip_pixels s
    /\ strip_shown s' = strip_shown s
    /\ current_line s' =
       wrap_line c (current_line s
                    + overrun_skip (time_per_line_micros s)
                        (time_per_line_micros s - u - TIMING_MARGIN_US c) + 1).
Proof.
  intros Ha Ht Hd.
  pose proof (output_line_missing c (line_to_show c s) s Hd) as Ho.
  destruct (display_current_line c u s) as [[s' w]|e] eqn:E.
  - exists s', w. split; [reflexivity|].
    apply display_shape in E.
    destruct E as [([Hf|Hf] & _) | (_ & _ & p & sh & Ho' & -> & _)];
      [congruence | lia |].
    rewrite Ho in Ho'. injection Ho' as Hs.
    assert (Hp : strip_pixels s = p) by (rewrite Hs at 1; reflexivity).
    assert (Hsh : strip_shown s = sh) by (rewrite Hs at 1; reflexivity).
    cbn. rewrite Hp, Hsh. split; [reflexivity|]. split; reflexivity.
  - exfalso. unfold display_current_line in E.
    rewrite Ha in E.
    replace (time_per_line_micros s <=? 0) with false in E
      by (symmetry; apply Z.leb_gt; exact Ht).
    cbn [negb orb] in E. unfold line_to_show in Ho. cbv zeta in E.
    rewrite Ho in E. cbn [bind] in E.
    destruct (0 <? _) in E;
      [|destruct (_ <? -1000) in E; [destruct (0 <? _) in E|]]; discriminate.
Qed.

Lemma missing_frame_line_leaves_strip_witness :
  exists s' w,
    display_current_line cfg0 3000 cleared_frame_state = Ok (s', w)
    /\ strip_pixels s' = strip_pixels cleared_frame_state
    /\ strip_shown s' = strip_shown cleared_frame_state
    /\ current_line s' =
       wrap_line cfg0 (current_line cleared_frame_state
                       + overrun_skip (time_per_line_micros cleared_frame_state)
                           (time_per_line_micros cleared_frame_state - 3000 - 300) + 1).
Proof.
  apply (missing_frame_line_leaves_strip cfg0 3000 cleared_frame_state).
  - vm_compute; reflexivity.
  - vm_compute; reflexivity.
  - left; vm_compute; reflexivity.
Defined.

(** C5 (the claim as stated fails).  In [cleared_frame_state] rotation is
    active and [display_data] is empty, yet the line drawn next keeps the
    LED lit by the previous frame instead of blanking the strip; and a
    frame whose lines hold a single colour makes the pixel loop raise
    IndexError. *)
Lemma missing_frame_not_blank_counterexample :
  let r := display_current_line cfg0 3000 cleared_frame_state in
  rotation_active cleared_frame_state = true
  /\ display_data cleared_frame_state = []
  /\ r = Ok (ok_or (cleared_frame_state, 0) r)
  /\ strip_shown (fst (ok_or (cleared_frame_state, 0) r)) <> blank_strip cfg0
  /\ display_current_line cfg0 3000
       (set_display_data (repeat [65280] 16) cleared_frame_state)
     = Raise IndexError.
Proof.
  vm_compute. split; [reflexivity|]. split; [reflexivity|].
  split; [reflexivity|]. split; [discriminate | reflexivity].
Qed.

(** ** C9: the first edge *)

Lemma step_keeps_timing c e s s' ob :
  step c e s = Ok (s', ob) -> ob <> ObsHall Accepted -> timing s' = timing s.
Proof.
  destruct e as [d | lvl now | u]; simpl.
  - intro H; inversion H; subst; reflexivity.
  - destruct (check_hall_sensor c lvl now s) as [s1 o] eqn:E.
    intros H Hn; inversion H; subst.
    apply hall_shape in E; cbv zeta in E.
    destruct o.
    + destruct E as [_ ->]; reflexivity.
    + destruct E as (_ & _ & _ & ->); reflexivity.
    + destruct E as (_ & _ & _ & _ & ->); reflexivity.
    + destruct E as (_ & _ & _ & _ & _ & ->); reflexivity.
    + destruct E as (_ & _ & _ & _ & _ & _ & _ & ->); reflexivity.
    + congruence.
  - destruct (display_current_line c u s) as [[s1 w]|x] eqn:E; simpl;
      [|discriminate].
    intros H _; inversion H; subst.
    apply display_shape in E.
    destruct E as [(_ & -> & _) | (_ & _ & p & sh & _ & -> & _)]; reflexivity.
Qed.

Lemma run_keeps_timing c evs : forall s s' obs,
  run c evs s = Ok (s', obs) -> ~ In (ObsHall Accepted) obs -> timing s' = timing s.
Proof.
  induction evs as [|e evs IH]; simpl; intros s s' obs H Hn.
  - inversion H; subst; reflexivity.
  - destruct (step c e s) as [[s1 ob]|x] eqn:E1; simpl in H; [|discriminate].
    destruct (run c evs s1) as [[s2 obs2]|x] eqn:E2; simpl in H; [|discriminate].
    inversion H; subst. simpl in Hn.
    rewrite (IH _ _ _ E2 (fun Hi => Hn (or_intror Hi))).
    apply (step_keeps_timing _ _ _ _ _ E1). intro Heq; apply Hn; left; auto.
Qed.

(** How [step] moves the revolution timestamp and the debounce reference:
    not at all, except through a revolution-start event, which sets the
    timestamp to the reading of the clock. *)
Lemma step_edge_cases c e s s1 ob :
  step c e s = Ok (s1, ob) ->
  (last_rotation_micros s1 = last_rotation_micros s
   /\ last_hall_trigger_time s1 = last_hall_trigger_time s
   /\ forall o, ob = ObsHall o ->
        o = NoEdge
        \/ exists now, e = HallPoll true now
                 /\ now - last_hall_trigger_time s < HALL_DEBOUNCE_US c)
  \/ exists now, e = HallPoll true now /\ last_rotation_micros s1 = now.
Proof.
  destruct e as [d | lvl now | u]; simpl.
  - intro H; inversion H; subst. left. repeat split. intros o Ho; discriminate.
  - destruct (check_hall_sensor c lvl now s) as [s2 o] eqn:E.
    intro H; inversion H; subst.
    apply hall_shape in E; cbv zeta in E.
    destruct o.
    + destruct E as [_ ->]. left. repeat split.
      intros o Ho; injection Ho as <-; left; reflexivity.
    + destruct E as (-> & _ & Hd & ->). left. repeat split.
      intros o Ho; injection Ho as <-; right; exists now; split; [reflexivity|exact Hd].
    + destruct E as (-> & _ & _ & _ & ->). right; exists now; split; reflexivity.
    + destruct E as (-> & _ & _ & _ & _ & ->). right; exists now; split; reflexivity.
    + destruct E as (-> & _ & _ & _ & _ & _ & _ & ->). right; exists now; split; reflexivity.
    + destruct E as (-> & _ & _ & _ & _ & _ & ->). right; exists now; split; reflexivity.
  - destruct (display_current_line c u s) as [[s2 w]|x] eqn:E; simpl; [|discriminate].
    intro H; inversion H; subst.
    apply display_shape in E. left.
    destruct E as [(_ & -> & _) | (_ & _ & p & sh & _ & -> & _)];
      repeat split; intros o Ho; discriminate.
Qed.

Lemma step_keeps_started c e s s1 ob :
  0 < HALL_DEBOUNCE_US c -> clock_after_debounce c [e] ->
  step c e s = Ok (s1, ob) -> 0 < last_rotation_micros s -> 0 < last_rotation_micros s1.
Proof.
  intros HD Hc H Hr. inversion Hc as [|? ? He _]; subst.
  destruct (step_edge_cases c e s s1 ob H) as [(-> & _ & _) | (now & -> & ->)];
    [exact Hr | simpl in He; lia].
Qed.

Lemma run_keeps_started c evs : forall s s' obs,
  0 < HALL_DEBOUNCE_US c -> clock_after_debounce c evs ->
  run c evs s = Ok (s', obs) -> 0 < last_rotation_micros s -> 0 < last_rotation_micros s'.
Proof.
  induction evs as [|e evs IH]; simpl; intros s s' obs HD Hc H Hr.
  - inversion H; subst; exact Hr.
  - inversion Hc as [|? ? He Hc']; subst.
    destruct (step c e s) as [[s1 ob]|x] eqn:E1; simpl in H; [|discriminate].
    destruct (run c evs s1) as [[s2 obs2]|x] eqn:E2; simpl in H; [|discriminate].
    inversion H; subst.
    apply (IH s1 _ obs2 HD Hc' E2).
    apply (step_keeps_started c e s s1 ob HD (Forall_cons _ He (Forall_nil _)) E1 Hr).
Qed.

(** While the debounce reference is still 0 and every reading is at least
    [HALL_DEBOUNCE_US], a run that ends without a revolution timestamp saw
    no low->high transition at all and kept the reference at 0. *)
Lemma run_before_first_edge c evs : forall s s' obs,
  0 < HALL_DEBOUNCE_US c -> clock_after_debounce c evs ->
  last_hall_trigger_time s = 0 ->
  run c evs s = Ok (s', obs) -> last_rotation_micros s' = 0 ->
  last_hall_trigger_time s' = 0 /\ (forall o, In (ObsHall o) obs -> o = NoEdge).
Proof.
  induction evs as [|e evs IH]; simpl; intros s s' obs HD Hc Ht H Hr.
  - inversion H; subst. split; [exact Ht | intros o []].
  - inversion Hc as [|? ? He Hc']; subst.
    destruct (step c e s) as [[s1 ob]|x] eqn:E1; simpl in H; [|discriminate].
    destruct (run c evs s1) as [[s2 obs2]|x] eqn:E2; simpl in H; [|discriminate].
    inversion H; subst.
    destruct (step_edge_cases c e s s1 ob E1) as [(Hr1 & Ht1 & Ho) | (now & -> & Hr1)].
    + rewrite Ht in Ht1.
      destruct (IH s1 s' obs2 HD Hc' Ht1 E2 Hr) as [Ht' Hobs].
      split; [exact Ht'|]. intros o [Hin|Hin]; [|exact (Hobs o Hin)].
      destruct (Ho o Hin) as [Hn | (now & -> & Hd)]; [exact Hn|].
      simpl in He. lia.
    + exfalso. simpl in He.
      assert (Hs1 : 0 < last_rotation_micros s1) by lia.
      pose proof (run_keeps_started c evs s1 s' obs2 HD Hc' E2 Hs1). lia.
Qed.

(** C9.  With the clock [get_time_micros()] delivers (every reading at
    least [HALL_DEBOUNCE_US]), consider any run of the program that has
    recorded no revolution timestamp and ends with the sensor low.  Until
    then the sensor never went low->high and the timing state (history,
    stable and current RPM, rotation time, time per line) is the start-up
    default.  The next low->high transition is a revolution-start event:
    it sets [rotation_active], increments the revolution counter and
    produces no period, leaving the timing state at its defaults; it stays
    there until a later edge has its period accepted. *)
Theorem first_edge_no_period (c : config) (evs : list event) (s : state)
    (obs : list observation) (now : Z) :
  0 < HALL_DEBOUNCE_US c -> clock_after_debounce c evs -> HALL_DEBOUNCE_US c <= now ->
  run c evs (init_state c) = Ok (s, obs) ->
  last_rotation_micros s = 0 -> last_hall_state s = false ->
  let r := check_hall_sensor c true now s in
  (forall o, In (ObsHall o) obs -> o = NoEdge)
  /\ timing s = timing (init_state c)
  /\ snd r = FirstEdge
  /\ rotation_active (fst r) = true
  /\ rotation_count (fst r) = rotation_count s + 1
  /\ timing (fst r) = timing (init_state c)
  /\ (forall evs' s'' obs', run c evs' (fst r) = Ok (s'', obs') ->
        ~ In (ObsHall Accepted) obs' -> timing s'' = timing (init_state c)).
Proof.
  intros HD Hc Hnow H H0 Hl r.
  destruct (run_before_first_edge c evs (init_state c) s obs HD Hc eq_refl H H0) as [Ht0 Hobs].
  assert (Ht : timing s = timing (init_state c)).
  { apply (run_keeps_timing c evs _ _ _ H). intro Hin.
    specialize (Hobs Accepted Hin). discriminate. }
  assert (Er : r = (phase_reset true now (set_last_hall_trigger_time now s), FirstEdge)).
  { unfold r, check_hall_sensor. rewrite Hl. cbn [andb negb].
    replace (now - last_hall_trigger_time s <? HALL_DEBOUNCE_US c) with false
      by (symmetry; apply Z.ltb_ge; rewrite Ht0; lia).
    cbv zeta. cbn [last_rotation_micros set_last_hall_trigger_time].
    rewrite H0. reflexivity. }
  assert (Htr : timing (fst r) = timing (init_state c)) by (rewrite Er; exact Ht).
  split; [exact Hobs|]. split; [exact Ht|].
  rewrite Er. cbn. repeat split.
  - exact Ht.
  - intros evs' s'' obs' H' Hn. rewrite Er in Htr.
    rewrite (run_keeps_timing c evs' _ _ _ H' Hn). exact Htr.
Qed.

Lemma first_edge_no_period_witness :
  let evs := [HallPoll false 600000; ModeChange demo_frame; HallPoll false 600050] in
  let s := run_final cfg0 evs in
  let obs := run_obs cfg0 evs in
  let r := check_hall_sensor cfg0 true 600100 s in
  (forall o, In (ObsHall o) obs -> o = NoEdge)
  /\ timing s = timing (init_state cfg0)
  /\ snd r = FirstEdge
  /\ rotation_active (fst r) = true
  /\ rotation_count (fst r) = rotation_count s + 1
  /\ timing (fst r) = timing (init_state cfg0)
  /\ (forall evs' s'' obs', run cfg0 evs' (fst r) = Ok (s'', obs') ->
        ~ In (ObsHall Accepted) obs' -> timing s'' = timing (init_state cfg0)).
Proof.
  intros evs s obs r.
  apply (first_edge_no_period cfg0 evs s obs 600100).
  - vm_compute; reflexivity.
  - repeat constructor; vm_compute; discriminate.
  - vm_compute; discriminate.
  - vm_compute; reflexivity.
  - vm_compute; reflexivity.
  - vm_compute; reflexivity.
Defined.

(** ** Frame generation, buttons, shutdown and the hall sensor bookkeeping *)

Lemma list_set_spec {A} (l : list A) n v :
  (n < length l)%nat ->
  exists l', list_set l n v = Some l' /\ length l' = length l
             /\ forall q d, nth q l' d = if Nat.eqb q n then v else nth q l d.
Proof.
  revert n; induction l as [|h t IH]; intros n Hn; simpl in Hn; [lia|].
  destruct n as [|n].
  - exists (v :: t); simpl; repeat split; intros [|q] d; reflexivity.
  - destruct (IH n ltac:(lia)) as (l' & E & Hl & Hq).
    exists (h :: l'); simpl; rewrite E; simpl; repeat split; [congruence|].
    intros [|q] d; simpl; auto.
Qed.

Lemma py_assign_spec l i v :
  0 <= i < Z.of_nat (length l) ->
  length (py_assign l i v) = length l
  /\ forall q, nth q (py_assign l i v) 0 = if Nat.eqb q (Z.to_nat i) then v else nth q l 0.
Proof.
  intro H. destruct (list_set_spec l (Z.to_nat i) v ltac:(lia)) as (l' & E & Hl & Hq).
  unfold py_assign; rewrite E; auto.
Qed.

(** Repeated assignments of one colour: a position ends up with the colour
    iff some step painted it. *)
Lemma fold_paint {A} (f : list Z -> A -> list Z) (cond : A -> nat -> bool)
    (col : Z) (n : nat) (xs : list A) :
  (forall l x, In x xs -> length l = n ->
     length (f l x) = n /\ forall q, nth q (f l x) 0 = if cond x q then col else nth q l 0) ->
  forall l, length l = n ->
    length (fold_left f xs l) = n
    /\ forall q, nth q (fold_left f xs l) 0
                 = if existsb (fun x => cond x q) xs then col else nth q l 0.
Proof.
  induction xs as [|x xs IH]; intros Hf l Hl; simpl; [auto|].
  destruct (Hf l x (or_introl eq_refl) Hl) as [Hl' Hq].
  destruct (IH (fun l y Hy => Hf l y (or_intror Hy)) (f l x) Hl') as [Hn Hq'].
  split; [exact Hn|]. intro q. rewrite Hq', Hq.
  destruct (cond x q), (existsb _ xs); reflexivity.
Qed.

Lemma in_zrange a b k : In k (zrange a b) <-> a <= k < b.
Proof.
  unfold zrange; rewrite in_map_iff. split.
  - intros (j & <- & Hj). apply in_seq in Hj. lia.
  - intro H. exists (Z.to_nat (k - a)). split; [lia|]. apply in_seq. lia.
Qed.

Lemma existsb_zrange (P : Z -> bool) a b :
  existsb P (zrange a b) = true <-> exists k, a <= k < b /\ P k = true.
Proof.
  rewrite existsb_exists. split; intros (k & H1 & H2); exists k; rewrite in_zrange in *; auto.
Qed.

Lemma length_zrange a b : length (zrange a b) = Z.to_nat (b - a).
Proof. unfold zrange. rewrite length_map, length_seq. reflexivity. Qed.

Lemma bool_eq_iff (b1 b2 : bool) : (b1 = true <-> b2 = true) -> b1 = b2.
Proof. destruct b1, b2; intuition congruence. Qed.

Lemma land_pow2_eqb b j :
  0 <= j -> (Z.land b (Z.shiftl 1 j) =? 0) = negb (Z.testbit b j).
Proof.
  intro Hj. rewrite Z.shiftl_1_l.
  destruct (Z.testbit b j) eqn:T; simpl.
  - apply Z.eqb_neq. intro E.
    assert (Hb : Z.testbit (Z.land b (2 ^ j)) j = true)
      by (rewrite Z.land_spec, T, Z.pow2_bits_true by lia; reflexivity).
    rewrite E, Z.bits_0 in Hb. discriminate.
  - apply Z.eqb_eq. apply Z.bits_inj'. intros k Hk.
    rewrite Z.land_spec, Z.bits_0, Z.pow2_bits_eqb by lia.
    destruct (Z.eqb_spec j k); [subst; rewrite T; reflexivity|].
    apply andb_false_r.
Qed.

Lemma nth_blank q n : nth q (repeat (Color 0 0 0) n) 0 = 0.
Proof.
  change (Color 0 0 0) with 0.
  destruct (Nat.lt_ge_cases q n).
  - apply nth_repeat_lt; exact H.
  - apply nth_overflow. rewrite repeat_length. exact H.
Qed.

(** One byte of [load_binary_image_data]: LED [8 * byte_idx + j] is lit
    iff bit [7 - j] of the byte is set. *)
Lemma set_byte_bits_spec c col b k l :
  0 <= k -> length l = Z.to_nat (NUM_LEDS c) ->
  length (set_byte_bits c col b k l) = Z.to_nat (NUM_LEDS c)
  /\ forall q, nth q (set_byte_bits c col b k l) 0 =
       if (Z.of_nat q <? NUM_LEDS c) && (8 * k <=? Z.of_nat q) && (Z.of_nat q <? 8 * k + 8)
          && Z.testbit b (7 - (Z.of_nat q - 8 * k))
       then col else nth q l 0.
Proof.
  intros Hk Hl.
  destruct (fold_paint
    (fun line bit =>
       let led_pos := k * 8 + bit in
       if led_pos <? NUM_LEDS c then
         if Z.land b (Z.shiftl 1 (7 - bit)) =? 0 then line
         else py_assign line led_pos col
       else line)
    (fun bit q => (Z.of_nat q =? k * 8 + bit) && (k * 8 + bit <? NUM_LEDS c)
                  && Z.testbit b (7 - bit))
    col (Z.to_nat (NUM_LEDS c)) (zrange 0 8)) with (l := l) as [Hlen Hq]; [|exact Hl|].
  { intros l' x Hx Hl'. apply in_zrange in Hx. cbv zeta.
    destruct (k * 8 + x <? NUM_LEDS c) eqn:Hn.
    - apply Z.ltb_lt in Hn. rewrite land_pow2_eqb by lia.
      destruct (Z.testbit b (7 - x)); simpl.
      + destruct (py_assign_spec l' (k * 8 + x) col ltac:(lia)) as [Ha Hb].
        split; [congruence|]. intro q. rewrite Hb.
        destruct (Nat.eqb_spec q (Z.to_nat (k * 8 + x))), (Z.eqb_spec (Z.of_nat q) (k * 8 + x));
          simpl; try lia; reflexivity.
      + split; [exact Hl'|]. intro q. rewrite !andb_false_r. reflexivity.
    - split; [exact Hl'|]. intro q. rewrite andb_false_r, andb_false_l. reflexivity. }
  split; [exact Hlen|]. intro q. unfold set_byte_bits. rewrite Hq.
  match goal with |- (if ?b1 then _ else _) = (if ?b2 then _ else _) =>
    replace b1 with b2; [reflexivity|symmetry] end.
  apply bool_eq_iff. rewrite existsb_zrange. split.
  - intros (j & Hj & E). apply andb_true_iff in E as [E Hb].
    apply andb_true_iff in E as [E1 E2].
    apply Z.eqb_eq in E1. apply Z.ltb_lt in E2.
    replace (Z.of_nat q - 8 * k) with j by lia.
    rewrite Hb. repeat (apply andb_true_iff; split); try reflexivity; lia.
  - intro E. repeat (apply andb_true_iff in E as [E ?]).
    exists (Z.of_nat q - 8 * k).
    repeat match goal with H : (_ <? _) = true |- _ => apply Z.ltb_lt in H
                         | H : (_ <=? _) = true |- _ => apply Z.leb_le in H end.
    split; [lia|]. repeat (apply andb_true_iff; split); try assumption.
    + apply Z.eqb_eq; lia.
    + apply Z.ltb_lt; lia.
Qed.

Lemma decode_bytes_ok c col row idxs line :
  (forall k, In k idxs -> 0 <= k < Z.of_nat (length row)) ->
  decode_bytes c col row idxs line
  = Ok (fold_left (fun l k => set_byte_bits c col (nth (Z.to_nat k) row 0) k l) idxs line).
Proof.
  revert line; induction idxs as [|k idxs IH]; intros line Hk; simpl; [reflexivity|].
  rewrite (nth_error_nth' row 0) by (specialize (Hk k (or_introl eq_refl)); lia).
  apply IH. intros j Hj; apply Hk; right; exact Hj.
Qed.

Lemma decode_row_spec c col row bpl :
  0 <= bpl <= Z.of_nat (length row) ->
  exists line,
    decode_bytes c col row (zrange 0 bpl) (repeat (Color 0 0 0) (Z.to_nat (NUM_LEDS c))) = Ok line
    /\ length line = Z.to_nat (NUM_LEDS c)
    /\ forall q, nth q line 0 =
         if (Z.of_nat q <? NUM_LEDS c) && (Z.of_nat q <? 8 * bpl)
            && Z.testbit (nth (Z.to_nat (Z.of_nat q / 8)) row 0) (7 - Z.of_nat q mod 8)
         then col else 0.
Proof.
  intro Hb. rewrite decode_bytes_ok
    by (intros k Hk; apply in_zrange in Hk; lia).
  destruct (fold_paint
    (fun l k => set_byte_bits c col (nth (Z.to_nat k) row 0) k l)
    (fun k q => (Z.of_nat q <? NUM_LEDS c) && (8 * k <=? Z.of_nat q) && (Z.of_nat q <? 8 * k + 8)
                && Z.testbit (nth (Z.to_nat k) row 0) (7 - (Z.of_nat q - 8 * k)))
    col (Z.to_nat (NUM_LEDS c)) (zrange 0 bpl))
    with (l := repeat (Color 0 0 0) (Z.to_nat (NUM_LEDS c))) as [Hlen Hq];
    [| apply repeat_length |].
  { intros l k Hk Hl. apply in_zrange in Hk.
    apply set_byte_bits_spec; [lia | exact Hl]. }
  eexists; split; [reflexivity|]. split; [exact Hlen|].
  intro q. rewrite Hq, nth_blank.
  match goal with |- (if ?b1 then _ else _) = (if ?b2 then _ else _) =>
    replace b1 with b2; [reflexivity|symmetry] end.
  apply bool_eq_iff. rewrite existsb_zrange. split.
  - intros (k & Hk & E). repeat (apply andb_true_iff in E as [E ?]).
    repeat match goal with H : (_ <? _) = true |- _ => apply Z.ltb_lt in H
                         | H : (_ <=? _) = true |- _ => apply Z.leb_le in H end.
    assert (Hd : Z.of_nat q / 8 = k) by (Z.div_mod_to_equations; lia).
    assert (Hm : Z.of_nat q mod 8 = Z.of_nat q - 8 * k) by (Z.div_mod_to_equations; lia).
    rewrite Hd, Hm.
    repeat (apply andb_true_iff; split); try assumption; apply Z.ltb_lt; lia.
  - intro E. repeat (apply andb_true_iff in E as [E ?]).
    repeat match goal with H : (_ <? _) = true |- _ => apply Z.ltb_lt in H end.
    exists (Z.of_nat q / 8). split; [Z.div_mod_to_equations; lia|].
    replace (Z.of_nat q - 8 * (Z.of_nat q / 8)) with (Z.of_nat q mod 8)
      by (Z.div_mod_to_equations; lia).
    repeat (apply andb_true_iff; split); try assumption;
      first [apply Z.ltb_lt | apply Z.leb_le]; Z.div_mod_to_equations; lia.
Qed.

Lemma decode_slices_spec c col bpl rows :
  0 <= bpl -> (forall row, In row rows -> bpl <= Z.of_nat (length row)) ->
  exists data,
    decode_slices c col bpl rows = Ok data
    /\ length data = length rows
    /\ (forall line, In line data -> length line = Z.to_nat (NUM_LEDS c))
    /\ forall i q, (i < length rows)%nat ->
         nth q (nth i data []) 0 =
         if (Z.of_nat q <? NUM_LEDS c) && (Z.of_nat q <? 8 * bpl)
            && Z.testbit (nth (Z.to_nat (Z.of_nat q / 8)) (nth i rows []) 0) (7 - Z.of_nat q mod 8)
         then col else 0.
Proof.
  intro Hb. induction rows as [|row rows IH]; intro Hr; simpl.
  - exists []; repeat split; [intros l []| intros i q Hi; simpl in Hi; lia].
  - destruct (decode_row_spec c col row bpl) as (line & E & Hl & Hq);
      [split; [exact Hb | apply Hr; left; reflexivity]|].
    destruct IH as (data & E' & Hd & Hls & Hq'); [intros r Hr'; apply Hr; right; exact Hr'|].
    rewrite E; simpl; rewrite E'; simpl.
    exists (line :: data). split; [reflexivity|]. split; [simpl; congruence|]. split.
    + intros l [<-|Hin]; auto.
    + intros [|i] q Hi; simpl; [apply Hq|]. apply Hq'. simpl in Hi; lia.
Qed.

Lemma decode_bytes_raise c col row idxs line :
  (exists k, In k idxs /\ nth_error row (Z.to_nat k) = None) ->
  exists e, decode_bytes c col row idxs line = Raise e.
Proof.
  revert line; induction idxs as [|k idxs IH]; intros line (j & Hj & Hn); [destruct Hj|].
  simpl. destruct (nth_error row (Z.to_nat k)) eqn:E; [|eauto].
  apply IH. destruct Hj as [<-|Hj]; [congruence|eauto].
Qed.

Lemma decode_slices_raise c col bpl rows row :
  In row rows -> (exists k, 0 <= k < bpl /\ nth_error row (Z.to_nat k) = None) ->
  exists e, decode_slices c col bpl rows = Raise e.
Proof.
  intros Hin (k & Hk & Hn). induction rows as [|r rows IH]; [destruct Hin|].
  simpl. destruct Hin as [<-|Hin].
  - destruct (decode_bytes_raise c col r (zrange 0 bpl) (repeat (Color 0 0 0) (Z.to_nat (NUM_LEDS c))))
      as [e ->]; [exists k; rewrite in_zrange; auto|].
    simpl; eauto.
  - destruct (decode_bytes c col r _ _); simpl; [|eauto].
    destruct (IH Hin) as [e ->]; simpl; eauto.
Qed.

(** When no row is shorter than the first one, [load_binary_image_data]
    succeeds.  It returns [max(len(binary_data), NUM_DIVISIONS)] lines, the
    missing ones padded blank, each of [NUM_LEDS] pixels.  Pixel [p] of line
    [i] gets the dimmed colour exactly when line [i] comes from the input,
    [p < 8 * bytes_per_line], and bit [7 - p mod 8] of byte [p // 8] of row
    [i] is set (most significant bit first); every other pixel is off.  Bits
    past [NUM_LEDS] and bytes past [bytes_per_line] are ignored. *)
Theorem load_binary_image_data_bits (c : config) (binary_data : list (list Z))
    (color_rgb : Z * Z * Z) :
  Forall (fun row => (length (hd [] binary_data) <= length row)%nat) binary_data ->
  exists data,
    load_binary_image_data c binary_data color_rgb = Ok data
    /\ length data = Nat.max (length binary_data) (Z.to_nat (NUM_DIVISIONS c))
    /\ (forall line, In line data -> length line = Z.to_nat (NUM_LEDS c))
    /\ forall i p, 0 <= p < NUM_LEDS c ->
         nth (Z.to_nat p) (nth i data []) 0 =
         if (i <? length binary_data)%nat
            && (p <? 8 * Z.of_nat (length (hd [] binary_data)))
            && Z.testbit (nth (Z.to_nat (p / 8)) (nth i binary_data []) 0) (7 - p mod 8)
         then scaled_color color_rgb else 0.
Proof.
  intro Hrows. rewrite Forall_forall in Hrows.
  unfold load_binary_image_data.
  set (bpl := match binary_data with [] => 0 | row0 :: _ => Z.of_nat (length row0) end).
  assert (Hbpl : bpl = Z.of_nat (length (hd [] binary_data)))
    by (unfold bpl; destruct binary_data; reflexivity).
  destruct (decode_slices_spec c (scaled_color color_rgb) bpl binary_data)
    as (data & E & Hlen & Hls & Hq);
    [lia | intros row Hr; specialize (Hrows row Hr); lia |].
  rewrite E; simpl. eexists; split; [reflexivity|].
  unfold pad_blank. split; [rewrite length_app, repeat_length; lia|]. split.
  - intros line Hin. apply in_app_or in Hin as [Hin|Hin]; [auto|].
    apply repeat_spec in Hin; subst; apply repeat_length.
  - intros i p Hp. rewrite <- Hbpl.
    destruct (Nat.ltb_spec i (length binary_data)) as [Hi|Hi].
    + rewrite app_nth1 by lia. rewrite Hq by exact Hi.
      rewrite Z2Nat.id by lia. simpl.
      replace (p <? NUM_LEDS c) with true by (symmetry; apply Z.ltb_lt; lia).
      reflexivity.
    + rewrite app_nth2 by lia. simpl.
      destruct (Nat.lt_ge_cases (i - length data)
                  (Z.to_nat (NUM_DIVISIONS c - Z.of_nat (length data)))).
      * rewrite nth_repeat_lt by assumption. apply nth_blank.
      * rewrite (nth_overflow (repeat _ _) []) by (rewrite ?repeat_length, ?length_repeat; lia).
        destruct (Z.to_nat p); reflexivity.
Qed.

Lemma load_binary_image_data_bits_witness :
  let bd := [[0x80; 0x01]; [0xFF; 0x00]] in
  Forall (fun row => (length (hd [] bd) <= length row)%nat) bd
  /\ exists data,
    load_binary_image_data cfg0 bd (0, 255, 255) = Ok data
    /\ length data = Nat.max (length bd) (Z.to_nat (NUM_DIVISIONS cfg0))
    /\ (forall line, In line data -> length line = Z.to_nat (NUM_LEDS cfg0))
    /\ forall i p, 0 <= p < NUM_LEDS cfg0 ->
         nth (Z.to_nat p) (nth i data []) 0 =
         if (i <? length bd)%nat
            && (p <? 8 * Z.of_nat (length (hd [] bd)))
            && Z.testbit (nth (Z.to_nat (p / 8)) (nth i bd []) 0) (7 - p mod 8)
         then scaled_color (0, 255, 255) else 0.
Proof.
  intro bd. assert (H : Forall (fun row => (length (hd [] bd) <= length row)%nat) bd)
    by (repeat constructor).
  split; [exact H | exact (load_binary_image_data_bits cfg0 bd (0, 255, 255) H)].
Defined.

(** If some row of [binary_data] is shorter than the first row,
    [load_binary_image_data] raises [IndexError]: it reads
    [binary_data[slice_idx][byte_idx]] before testing [led_pos < NUM_LEDS],
    so even bytes that would fall past the strip are read. *)
Theorem load_binary_image_short_row (c : config) (binary_data : list (list Z))
    (color_rgb : Z * Z * Z) (row : list Z) :
  In row binary_data -> (length row < length (hd [] binary_data))%nat ->
  load_binary_image_data c binary_data color_rgb = Raise IndexError.
Proof.
  intros Hin Hshort. unfold load_binary_image_data.
  destruct (decode_slices_raise c (scaled_color color_rgb)
              (match binary_data with [] => 0 | row0 :: _ => Z.of_nat (length row0) end)
              binary_data row Hin) as [[] ->]; [|reflexivity].
  exists (Z.of_nat (length row)). split.
  - destruct binary_data; simpl in *; lia.
  - apply nth_error_None. lia.
Qed.

Lemma load_binary_image_short_row_witness :
  load_binary_image_data cfg0 [[0x80; 0x01]; [0xFF]] (0, 255, 255) = Raise IndexError.
Proof.
  apply (load_binary_image_short_row cfg0 [[0x80; 0x01]; [0xFF]] (0, 255, 255) [0xFF]).
  - simpl; auto.
  - simpl; lia.
Defined.

(** [generate_circle_data] draws the same line at each of the
    [NUM_DIVISIONS] angles.  The line has [NUM_LEDS] pixels.  Pixel [p] gets
    the dimmed colour exactly when [radius_leds < NUM_LEDS // 2] and [p] lies
    in one of the two bands of offsets [-t // 2 .. t // 2] (with
    [t = max(3, 7 - NUM_DIVISIONS // 5)]) around [center_led - radius_leds]
    and [center_led + radius_leds]; every other pixel is off.  Band positions
    outside the strip are skipped, not wrapped. *)
Theorem generate_circle_data_rings (c : config) (radius_leds : Z) (color_rgb : Z * Z * Z) :
  let t := Z.max 3 (7 - NUM_DIVISIONS c / 5) in
  let center := NUM_LEDS c / 2 in
  exists line,
    generate_circle_data c radius_leds color_rgb = repeat line (Z.to_nat (NUM_DIVISIONS c))
    /\ length line = Z.to_nat (NUM_LEDS c)
    /\ forall p, 0 <= p < NUM_LEDS c ->
         nth (Z.to_nat p) line 0 =
         if (radius_leds <? center)
            && ((center - radius_leds + (- t) / 2 <=? p) && (p <=? center - radius_leds + t / 2)
                || (center + radius_leds + (- t) / 2 <=? p) && (p <=? center + radius_leds + t / 2))
         then scaled_color color_rgb else 0.
Proof.
  intros t center. unfold generate_circle_data. cbv zeta.
  rewrite map_const, length_zrange, Z.sub_0_r.
  eexists; split; [reflexivity|].
  fold t center.
  set (col := scaled_color color_rgb).
  destruct (radius_leds <? center) eqn:Hr; simpl.
  2:{ split; [apply repeat_length|]. intros p _. apply nth_blank. }
  match goal with |- context [fold_left ?f (zrange ?a ?b) ?l0] =>
    destruct (fold_paint f
      (fun off q =>
         ((0 <=? center - radius_leds + off) && (center - radius_leds + off <? NUM_LEDS c)
          && (Z.of_nat q =? center - radius_leds + off))
         || ((0 <=? center + radius_leds + off) && (center + radius_leds + off <? NUM_LEDS c)
             && (Z.of_nat q =? center + radius_leds + off)))
      col (Z.to_nat (NUM_LEDS c)) (zrange a b)) with (l := l0) as [Hlen Hq];
      [| apply repeat_length |] end.
  { intros l off _ Hl. cbv beta zeta.
    set (p1 := center - radius_leds + off). set (p2 := center + radius_leds + off).
    assert (H1 : forall l1, length l1 = Z.to_nat (NUM_LEDS c) ->
              let l2 := if (0 <=? p1) && (p1 <? NUM_LEDS c) then py_assign l1 p1 col else l1 in
              length l2 = Z.to_nat (NUM_LEDS c) /\
              forall q, nth q l2 0 = if (0 <=? p1) && (p1 <? NUM_LEDS c) && (Z.of_nat q =? p1)
                                    then col else nth q l1 0).
    { intros l1 Hl1 l2. subst l2.
      destruct (0 <=? p1) eqn:A; destruct (p1 <? NUM_LEDS c) eqn:B; simpl; auto.
      apply Z.leb_le in A; apply Z.ltb_lt in B.
      destruct (py_assign_spec l1 p1 col ltac:(lia)) as [Ha Hb].
      split; [congruence|]. intro q. rewrite Hb.
      destruct (Nat.eqb_spec q (Z.to_nat p1)), (Z.eqb_spec (Z.of_nat q) p1); lia || reflexivity. }
    destruct (H1 l Hl) as [Hl2 Hq2]. cbv zeta in Hl2, Hq2.
    set (l2 := if (0 <=? p1) && (p1 <? NUM_LEDS c) then py_assign l p1 col else l) in *.
    destruct (0 <=? p2) eqn:A; destruct (p2 <? NUM_LEDS c) eqn:B; simpl.
    2-4: split; [exact Hl2|]; intro q; rewrite Hq2, orb_false_r; reflexivity.
    apply Z.leb_le in A; apply Z.ltb_lt in B.
    destruct (py_assign_spec l2 p2 col ltac:(lia)) as [Ha Hb].
    split; [congruence|]. intro q. rewrite Hb, Hq2.
    destruct (Nat.eqb_spec q (Z.to_nat p2)), (Z.eqb_spec (Z.of_nat q) p2); try lia;
      rewrite ?orb_true_r, ?orb_false_r; reflexivity. }
  split; [exact Hlen|]. intros p Hp. rewrite Hq, nth_blank.
  match goal with |- (if ?b1 then _ else _) = (if ?b2 then _ else _) =>
    replace b1 with b2; [reflexivity|symmetry] end.
  apply bool_eq_iff. rewrite existsb_zrange. rewrite Z2Nat.id by lia. split.
  - intros (k & Hk & E). apply orb_true_iff in E as [E|E];
      repeat (apply andb_true_iff in E as [E ?]);
      repeat match goal with H : (_ <? _) = true |- _ => apply Z.ltb_lt in H
                           | H : (_ <=? _) = true |- _ => apply Z.leb_le in H
                           | H : (_ =? _) = true |- _ => apply Z.eqb_eq in H end;
      apply orb_true_iff; [left|right];
      apply andb_true_iff; split; apply Z.leb_le; lia.
  - intro E. apply orb_true_iff in E as [E|E]; apply andb_true_iff in E as [E1 E2];
      apply Z.leb_le in E1; apply Z.leb_le in E2.
    + exists (p - (center - radius_leds)). split; [lia|].
      apply orb_true_iff; left.
      repeat (apply andb_true_iff; split); first [apply Z.leb_le | apply Z.ltb_lt | apply Z.eqb_eq]; lia.
    + exists (p - (center + radius_leds)). split; [lia|].
      apply orb_true_iff; right.
      repeat (apply andb_true_iff; split); first [apply Z.leb_le | apply Z.ltb_lt | apply Z.eqb_eq]; lia.
Qed.

Lemma set_line_pixels_spec line i fuel buf :
  (i + fuel <= length buf)%nat -> (i + fuel <= length line)%nat ->
  exists buf', set_line_pixels line i fuel buf = Ok buf'
    /\ length buf' = length buf
    /\ forall q, nth q buf' 0 =
         if (i <=? q)%nat && (q <? i + fuel)%nat then nth q line 0 else nth q buf 0.
Proof.
  revert i buf; induction fuel as [|fuel IH]; intros i buf Hb Hl; simpl.
  - exists buf; split; [reflexivity|split; [reflexivity|]]; intro q.
    destruct (Nat.leb_spec i q), (Nat.ltb_spec q (i + 0)); simpl; try lia; reflexivity.
  - rewrite (nth_error_nth' line 0) by lia.
    destruct (list_set_spec buf i (nth i line 0) ltac:(lia)) as (b1 & E1 & L1 & Q1).
    unfold setPixelColor; rewrite E1; simpl.
    destruct (IH (S i) b1 ltac:(lia) ltac:(lia)) as (b2 & E2 & L2 & Q2).
    exists b2; split; [exact E2|]; split; [congruence|].
    intro q. rewrite Q2, Q1.
    destruct (Nat.leb_spec (S i) q), (Nat.ltb_spec q (S i + fuel)),
             (Nat.leb_spec i q), (Nat.ltb_spec q (i + S fuel)); simpl; try lia;
    destruct (Nat.eqb_spec q i); try lia; subst; reflexivity.
Qed.

Lemma clear_pixels_spec i fuel buf :
  (i + fuel <= length buf)%nat ->
  exists buf', clear_pixels i fuel buf = Ok buf'
    /\ length buf' = length buf
    /\ forall q, nth q buf' 0 = if (i <=? q)%nat && (q <? i + fuel)%nat then 0 else nth q buf 0.
Proof.
  revert i buf; induction fuel as [|fuel IH]; intros i buf Hb; simpl.
  - exists buf; split; [reflexivity|split; [reflexivity|]]; intro q.
    destruct (Nat.leb_spec i q), (Nat.ltb_spec q (i + 0)); simpl; try lia; reflexivity.
  - destruct (list_set_spec buf i (Color 0 0 0) ltac:(lia)) as (b1 & E1 & L1 & Q1).
    unfold setPixelColor; rewrite E1; simpl.
    destruct (IH (S i) b1 ltac:(lia)) as (b2 & E2 & L2 & Q2).
    exists b2; split; [exact E2|]; split; [congruence|].
    intro q. rewrite Q2, Q1.
    destruct (Nat.leb_spec (S i) q), (Nat.ltb_spec q (S i + fuel)),
             (Nat.leb_spec i q), (Nat.ltb_spec q (i + S fuel)); simpl; try lia;
    destruct (Nat.eqb_spec q i); try lia; subst; reflexivity.
Qed.

Lemma list_set_length {A} (l : list A) n v l' :
  list_set l n v = Some l' -> length l' = length l.
Proof.
  revert n l'; induction l as [|h t IH]; intros [|n] l' E; simpl in E; try discriminate.
  - inversion E; reflexivity.
  - destruct (list_set t n v) as [t'|] eqn:E'; simpl in E; [|discriminate].
    inversion E; simpl. f_equal. eapply IH; exact E'.
Qed.

Lemma set_line_pixels_length line i fuel buf buf' :
  set_line_pixels line i fuel buf = Ok buf' -> length buf' = length buf.
Proof.
  revert i buf; induction fuel as [|fuel IH]; intros i buf; simpl.
  - intro H; inversion H; reflexivity.
  - destruct (nth_error line i); [|discriminate].
    unfold setPixelColor. destruct (list_set buf i z) as [b1|] eqn:E; simpl; [|discriminate].
    intro H. rewrite (IH _ _ H). eapply list_set_length; exact E.
Qed.

Lemma output_line_length c l s s' :
  output_line c l s = Ok s' -> length (strip_pixels s') = length (strip_pixels s).
Proof.
  unfold output_line. destruct (_ && _).
  - destruct (set_line_pixels _ _ _ _) as [buf|e] eqn:E; simpl; intro H; inversion H.
    simpl. eapply set_line_pixels_length; exact E.
  - intro H; inversion H; reflexivity.
Qed.

(** [check_hall_sensor] leaves the frame, the strip and the line-time
    bookkeeping alone. *)
Lemma hall_keeps_display c lvl now s s' o :
  check_hall_sensor c lvl now s = (s', o) ->
  display_data s' = display_data s /\ strip_pixels s' = strip_pixels s
  /\ strip_shown s' = strip_shown s /\ missed_lines_count s' = missed_lines_count s.
Proof.
  intro H. apply hall_shape in H. cbv zeta in H.
  destruct o; decompose record H; subst; repeat split.
Qed.

Lemma step_strip_length c e s s' ob :
  step c e s = Ok (s', ob) -> length (strip_pixels s') = length (strip_pixels s).
Proof.
  destruct e as [d | lvl now | u]; simpl.
  - intro H; inversion H; reflexivity.
  - destruct (check_hall_sensor c lvl now s) as [s1 o] eqn:E.
    intro H; inversion H; subst. apply hall_keeps_display in E as (_ & -> & _); reflexivity.
  - destruct (display_current_line c u s) as [[s1 w]|x] eqn:E; simpl; [|discriminate].
    intro H; inversion H; subst. apply display_shape in E.
    destruct E as [(_ & -> & _) | (_ & _ & p & sh & Ho & -> & _)]; [reflexivity|].
    apply output_line_length in Ho. exact Ho.
Qed.

Lemma run_strip_length c evs : forall s s' obs,
  run c evs s = Ok (s', obs) -> length (strip_pixels s') = length (strip_pixels s).
Proof.
  induction evs as [|e evs IH]; simpl; intros s s' obs H.
  - inversion H; reflexivity.
  - destruct (step c e s) as [[s1 ob]|x] eqn:E1; simpl in H; [|discriminate].
    destruct (run c evs s1) as [[s2 obs2]|x] eqn:E2; simpl in H; [|discriminate].
    inversion H; subst. rewrite (IH _ _ _ E2). eapply step_strip_length; exact E1.
Qed.

Lemma reachable_strip_length c s :
  reachable c s -> length (strip_pixels s) = Z.to_nat (NUM_LEDS c).
Proof.
  intros (evs & obs & H). rewrite (run_strip_length _ _ _ _ _ H).
  apply repeat_length.
Qed.

(** From every reachable state, [clear_strip] sets all [NUM_LEDS] pixels
    to [Color(0, 0, 0)] and shows them; nothing else in the state changes. *)
Theorem clear_strip_blanks (c : config) (s : state) :
  reachable c s ->
  clear_strip c s = Ok (set_strip_shown (blank_strip c) (set_strip_pixels (blank_strip c) s)).
Proof.
  intro Hr. apply reachable_strip_length in Hr.
  unfold clear_strip.
  destruct (clear_pixels_spec 0 (Z.to_nat (NUM_LEDS c)) (strip_pixels s) ltac:(lia))
    as (buf & E & L & Q).
  rewrite E; simpl.
  replace buf with (blank_strip c); [reflexivity|].
  apply nth_ext with (d := 0) (d' := 0).
  - unfold blank_strip. rewrite repeat_length. congruence.
  - intros q Hq. unfold blank_strip in *. rewrite repeat_length in Hq.
    rewrite Q, nth_repeat_lt by exact Hq.
    destruct (Nat.ltb_spec q (0 + Z.to_nat (NUM_LEDS c))); simpl; [reflexivity|lia].
Qed.

Lemma clear_strip_blanks_witness :
  clear_strip cfg0 demo_state
  = Ok (set_strip_shown (blank_strip cfg0) (set_strip_pixels (blank_strip cfg0) demo_state)).
Proof.
  apply (clear_strip_blanks cfg0 demo_state). exact demo_state_reachable.
Defined.

Lemma output_line_full c l s :
  0 <= l < Z.of_nat (length (display_data s)) ->
  length (strip_pixels s) = Z.to_nat (NUM_LEDS c) ->
  (Z.to_nat (NUM_LEDS c) <= length (nth (Z.to_nat l) (display_data s) []))%nat ->
  let buf := firstn (Z.to_nat (NUM_LEDS c)) (nth (Z.to_nat l) (display_data s) []) in
  output_line c l s = Ok (set_strip_shown buf (set_strip_pixels buf s)).
Proof.
  intros Hl Hs Hline buf. unfold output_line.
  destruct (display_data s) as [|row rows] eqn:Hd; [simpl in Hl; lia|].
  replace (l <? Z.of_nat (length (row :: rows))) with true by (symmetry; apply Z.ltb_lt; lia).
  simpl negb; cbn [andb].
  destruct (set_line_pixels_spec (nth (Z.to_nat l) (row :: rows) []) 0 (Z.to_nat (NUM_LEDS c))
              (strip_pixels s) ltac:(lia) ltac:(lia)) as (b & E & L & Q).
  rewrite E; simpl.
  replace b with buf; [reflexivity|].
  apply nth_ext with (d := 0) (d' := 0).
  - unfold buf. rewrite length_firstn. lia.
  - intros q Hq. unfold buf in *. rewrite length_firstn in Hq.
    rewrite Q, nth_firstn.
    destruct (Nat.ltb_spec q (Z.to_nat (NUM_LEDS c))), (Nat.ltb_spec q (0 + Z.to_nat (NUM_LEDS c)));
      simpl; try lia; reflexivity.
Qed.

Lemma display_after_output c u s so :
  rotation_active s = true -> 0 < time_per_line_micros s ->
  output_line c (line_to_show c s) s = Ok so ->
  exists s' w, display_current_line c u s = Ok (s', w)
    /\ strip_pixels s' = strip_pixels so /\ strip_shown s' = strip_shown so.
Proof.
  intros Ha Ht Ho. unfold display_current_line.
  rewrite Ha. replace (time_per_line_micros s <=? 0) with false by (symmetry; apply Z.leb_gt; lia).
  unfold line_to_show in Ho. simpl negb; cbn [orb]. rewrite Ho; simpl.
  repeat match goal with |- context [if ?b then _ else _] => destruct b end;
    eexists; eexists; split; try reflexivity; split; reflexivity.
Qed.

(** When rotation is active with a positive time per line, the frame has a
    line [line_to_show] and that line holds at least [NUM_LEDS] values,
    [display_current_line] succeeds, and the strip then holds and shows
    exactly the first [NUM_LEDS] values of that frame line. *)
Theorem display_full_line_shown (c : config) (u : Z) (s : state) :
  1 <= NUM_DIVISIONS c -> reachable c s ->
  rotation_active s = true -> 0 < time_per_line_micros s ->
  line_to_show c s < Z.of_nat (length (display_data s)) ->
  (Z.to_nat (NUM_LEDS c) <= length (nth (Z.to_nat (line_to_show c s)) (display_data s) []))%nat ->
  exists s' w,
    display_current_line c u s = Ok (s', w)
    /\ strip_pixels s' = firstn (Z.to_nat (NUM_LEDS c))
                                (nth (Z.to_nat (line_to_show c s)) (display_data s) [])
    /\ strip_shown s' = strip_pixels s'.
Proof.
  intros HN Hr Ha Ht Hl Hline.
  assert (H0 : 0 <= line_to_show c s) by (unfold line_to_show; apply Z.mod_pos_bound; lia).
  pose proof (output_line_full c (line_to_show c s) s ltac:(lia)
                (reachable_strip_length c s Hr) Hline) as Ho.
  cbv zeta in Ho.
  destruct (display_after_output c u s _ Ha Ht Ho) as (s' & w & E & Hp & Hsh).
  exists s', w. split; [exact E|]. rewrite Hp, Hsh. split; reflexivity.
Qed.

Lemma display_full_line_shown_witness :
  exists s' w,
    display_current_line cfg0 4000 demo_state = Ok (s', w)
    /\ strip_pixels s' = firstn (Z.to_nat (NUM_LEDS cfg0))
                                (nth (Z.to_nat (line_to_show cfg0 demo_state)) (display_data demo_state) [])
    /\ strip_shown s' = strip_pixels s'.
Proof.
  apply (display_full_line_shown cfg0 4000 demo_state).
  - vm_compute; discriminate.
  - exact demo_state_reachable.
  - vm_compute; reflexivity.
  - vm_compute; reflexivity.
  - vm_compute; reflexivity.
  - vm_compute; lia.
Defined.

Lemma step_accepted c e s s' :
  step c e s = Ok (s', ObsHall Accepted) ->
  exists lvl now, check_hall_sensor c lvl now s = (s', Accepted).
Proof.
  destruct e as [d | lvl now | u]; simpl.
  - intro H; inversion H.
  - destruct (check_hall_sensor c lvl now s) as [s1 o] eqn:E.
    intro H; inversion H; subst; eauto.
  - destruct (display_current_line c u s) as [[s1 w]|x]; simpl; intro H; inversion H.
Qed.

(** A step either is an accepted period or keeps the timing state. *)
Lemma step_timing_cases c e s s' ob :
  step c e s = Ok (s', ob) ->
  timing s' = timing s
  \/ exists lvl now, check_hall_sensor c lvl now s = (s', Accepted).
Proof.
  intro H. destruct ob as [|o|w]; try (left; eapply step_keeps_timing; [exact H|discriminate]).
  destruct o; try (left; eapply step_keeps_timing; [exact H|discriminate]).
  right; eapply step_accepted; exact H.
Qed.

Lemma run_invariant (P : state -> Prop) c :
  (forall e s s' ob, P s -> step c e s = Ok (s', ob) -> P s') ->
  forall evs s s' obs, P s -> run c evs s = Ok (s', obs) -> P s'.
Proof.
  intros Hstep evs; induction evs as [|e evs IH]; simpl; intros s s' obs Hs H.
  - inversion H; subst; exact Hs.
  - destruct (step c e s) as [[s1 ob]|x] eqn:E1; simpl in H; [|discriminate].
    destruct (run c evs s1) as [[s2 obs2]|x] eqn:E2; simpl in H; [|discriminate].
    inversion H; subst. eapply IH; [|exact E2]. eapply Hstep; eauto.
Qed.

(** In every reachable state, [time_per_line_micros] is either still its
    initial value or at least [LED_UPDATE_TIME_US]: [check_hall_sensor]
    clamps every per-line time it computes from below. *)
Theorem time_per_line_floor (c : config) (s : state) :
  reachable c s ->
  time_per_line_micros s = time_per_line_micros (init_state c)
  \/ LED_UPDATE_TIME_US c <= time_per_line_micros s.
Proof.
  intros (evs & obs & H).
  refine (run_invariant (fun s => time_per_line_micros s = time_per_line_micros (init_state c)
                                  \/ LED_UPDATE_TIME_US c <= time_per_line_micros s)
            c _ evs _ _ _ (or_introl eq_refl) H).
  intros e s1 s2 ob Hs E. destruct (step_timing_cases c e s1 s2 ob E) as [Ht | (lvl & now & Hh)].
  - unfold timing in Ht. injection Ht as _ _ _ _ ->. exact Hs.
  - apply hall_shape in Hh. cbv zeta in Hh. decompose record Hh. subst s2.
    right. cbn. match goal with |- context [if ?x <? ?y then _ else _] => destruct (Z.ltb_spec x y) end; lia.
Qed.

Lemma time_per_line_floor_witness :
  let s := run_final cfg0 steady_trace in
  time_per_line_micros s = time_per_line_micros (init_state cfg0)
  \/ LED_UPDATE_TIME_US cfg0 <= time_per_line_micros s.
Proof.
  intro s. apply (time_per_line_floor cfg0 s).
  apply run_final_reachable. vm_compute; reflexivity.
Defined.

(** Counting over a trace. *)
Lemma count_hall_cons p ob obs :
  count_hall p (ob :: obs) = count_hall p [ob] + count_hall p obs.
Proof.
  unfold count_hall; simpl.
  destruct ob as [|o|w]; [reflexivity| |reflexivity]. destruct (p o); simpl length; lia.
Qed.

Lemma step_counters c e s s' ob :
  (0 < last_rotation_micros s -> rotation_active s = true) ->
  step c e s = Ok (s', ob) ->
  rotation_count s' = rotation_count s + count_hall is_revolution_event [ob]
  /\ valid_rotation_count s' = valid_rotation_count s + count_hall is_accepted [ob]
  /\ noise_rejected_count s' = noise_rejected_count s + count_hall is_noise_rejection [ob]
  /\ (rotation_active s' = true
      <-> rotation_active s = true \/ 0 < count_hall is_revolution_event [ob])
  /\ (0 < last_rotation_micros s' -> rotation_active s' = true).
Proof.
  intro Hi. destruct e as [d | lvl now | u]; simpl.
  - intro H; inversion H; subst. unfold count_hall; simpl.
    repeat split; try lia; intuition (try lia).
  - destruct (check_hall_sensor c lvl now s) as [s1 o] eqn:E.
    intro H; inversion H; subst. apply hall_shape in E. cbv zeta in E.
    unfold count_hall; destruct o; simpl; decompose record E; subst; cbn;
      repeat split; try lia; intuition (try lia; try congruence).
  - destruct (display_current_line c u s) as [[s1 w]|x] eqn:E; simpl; [|discriminate].
    intro H; inversion H; subst. apply display_shape in E. unfold count_hall; simpl.
    destruct E as [(_ & -> & _) | (_ & _ & p & sh & _ & -> & _)]; cbn;
      repeat split; try lia; intuition (try lia).
Qed.

Lemma run_counters c evs : forall s s' obs,
  (0 < last_rotation_micros s -> rotation_active s = true) ->
  run c evs s = Ok (s', obs) ->
  rotation_count s' = rotation_count s + count_hall is_revolution_event obs
  /\ valid_rotation_count s' = valid_rotation_count s + count_hall is_accepted obs
  /\ noise_rejected_count s' = noise_rejected_count s + count_hall is_noise_rejection obs
  /\ (rotation_active s' = true
      <-> rotation_active s = true \/ 0 < count_hall is_revolution_event obs).
Proof.
  induction evs as [|e evs IH]; simpl; intros s s' obs Hi H.
  - inversion H; subst. unfold count_hall; simpl. repeat split; try lia; intuition lia.
  - destruct (step c e s) as [[s1 ob]|x] eqn:E1; simpl in H; [|discriminate].
    destruct (run c evs s1) as [[s2 obs2]|x] eqn:E2; simpl in H; [|discriminate].
    inversion H; subst.
    destruct (step_counters c e s s1 ob Hi E1) as (R1 & V1 & N1 & A1 & I1).
    destruct (IH s1 s' obs2 I1 E2) as (R2 & V2 & N2 & A2).
    rewrite !(count_hall_cons _ ob obs2).
    assert (0 <= count_hall is_revolution_event [ob]) by (unfold count_hall; lia).
    assert (0 <= count_hall is_revolution_event obs2) by (unfold count_hall; lia).
    repeat split; try lia; rewrite A2, A1; intuition lia.
Qed.

(** After any run from the initial state, the statistics counters account
    for what the hall sensor reported: [rotation_count] is the number of
    revolution events, [valid_rotation_count] the number of accepted periods,
    and [noise_rejected_count] the number of debounced, out-of-range or
    outlier edges.  Rotation is active exactly when at least one revolution
    event has occurred. *)
Theorem counters_account_for_trace (c : config) (evs : list event) (s : state)
    (obs : list observation) :
  run c evs (init_state c) = Ok (s, obs) ->
  rotation_count s = count_hall is_revolution_event obs
  /\ valid_rotation_count s = count_hall is_accepted obs
  /\ noise_rejected_count s = count_hall is_noise_rejection obs
  /\ (rotation_active s = true <-> 0 < count_hall is_revolution_event obs).
Proof.
  intro H. destruct (run_counters c evs (init_state c) s obs) as (R & V & N & A);
    [simpl; lia | exact H |].
  simpl in R, V, N, A. repeat split; try lia; intuition (try discriminate; try lia).
Qed.

Lemma counters_account_for_trace_witness :
  let s := run_final cfg0 three_samples_trace in
  let obs := run_obs cfg0 three_samples_trace in
  rotation_count s = count_hall is_revolution_event obs
  /\ valid_rotation_count s = count_hall is_accepted obs
  /\ noise_rejected_count s = count_hall is_noise_rejection obs
  /\ (rotation_active s = true <-> 0 < count_hall is_revolution_event obs).
Proof.
  intros s obs. apply (counters_account_for_trace cfg0 three_samples_trace s obs).
  vm_compute; reflexivity.
Defined.

Lemma push_history_length size h x :
  (length h <= size)%nat -> (length (push_history size h x) <= size)%nat.
Proof.
  unfold push_history. rewrite length_app; simpl.
  destruct (Nat.ltb_spec size (length h + 1)).
  - destruct (h ++ [x]) eqn:E; simpl; [lia|].
    apply (f_equal (@length float)) in E. rewrite length_app in E; simpl in E. lia.
  - rewrite length_app; simpl; lia.
Qed.

Lemma push_history_in size h x y :
  In y (push_history size h x) -> y = x \/ In y h.
Proof.
  unfold push_history. intro H.
  assert (Hy : In y (h ++ [x])).
  { destruct (size <? length (h ++ [x]))%nat; [|exact H].
    destruct (h ++ [x]); [destruct H|right; exact H]. }
  apply in_app_or in Hy as [Hy|[<-|[]]]; auto.
Qed.

Lemma hist_ok_init c : hist_ok c (init_state c).
Proof.
  unfold hist_ok; simpl. split; [lia|intros x []].
Qed.

Lemma step_hist_ok c e s s' ob :
  hist_ok c s -> step c e s = Ok (s', ob) -> hist_ok c s'.
Proof.
  intros (Hlen & Hin) E.
  destruct (step_timing_cases c e s s' ob E) as [Ht | (lvl & now & Hh)].
  - unfold timing in Ht. injection Ht as Hh1 _ _ _ _.
    unfold hist_ok. rewrite Hh1. auto.
  - apply hall_shape in Hh. cbv zeta in Hh. decompose record Hh. subst s'.
    set (m := now - last_rotation_micros s) in *.
    unfold hist_ok; cbn.
    split; [apply push_history_length, Hlen|].
    intros x Hx. apply push_history_in in Hx as [->|Hx]; [exists m; auto | apply Hin, Hx].
Qed.

(** In every reachable state the RPM history holds at most
    [RPM_HISTORY_SIZE] entries, and each entry is the float
    [60000000 / period] for a period that passed the range check. *)
Theorem rpm_history_within_bounds (c : config) (s : state) :
  reachable c s ->
  (length (rpm_history s) <= RPM_HISTORY_SIZE c)%nat
  /\ (forall x, In x (rpm_history s) ->
        exists m, period_in_range c m = true /\ x = py_truediv 60000000 m).
Proof.
  intros (evs & obs & H).
  exact (run_invariant (hist_ok c) c (step_hist_ok c) evs _ _ _ (hist_ok_init c) H).
Qed.

Lemma rpm_history_within_bounds_witness :
  let s := run_final cfg0 steady_trace in
  (length (rpm_history s) <= RPM_HISTORY_SIZE cfg0)%nat
  /\ (forall x, In x (rpm_history s) ->
        exists m, period_in_range cfg0 m = true /\ x = py_truediv 60000000 m).
Proof.
  intro s. apply (rpm_history_within_bounds cfg0 s).
  apply run_final_reachable. vm_compute; reflexivity.
Defined.

Lemma existsb_ext_in_list {A} (f g : A -> bool) (l : list A) :
  (forall x, In x l -> f x = g x) -> existsb f l = existsb g l.
Proof.
  induction l as [|a l IH]; intros H; simpl; [reflexivity|].
  rewrite (H a (or_introl eq_refl)), IH by (intros x Hx; apply H; right; exact Hx). reflexivity.
Qed.

Lemma poll_buttons_spec t read entries : forall bs s,
  NoDup (map entry_pin entries) ->
  (forall e, In e entries -> exists d, entry_data e = Ok d) ->
  exists bs' s',
    poll_buttons t read entries bs s = Ok (bs', s')
    /\ (forall pin, last_button_states bs' pin =
          if existsb (fun e => entry_pin e =? pin) entries then read pin
          else last_button_states bs pin)
    /\ (forall pin, last_button_time bs' pin =
          if existsb (fun e => (entry_pin e =? pin) && button_fires t read bs e) entries
          then t else last_button_time bs pin)
    /\ match rev (filter (button_fires t read bs) entries) with
       | [] => current_mode bs' = current_mode bs /\ s' = s
       | e :: _ => current_mode bs' = entry_mode e /\ Ok (display_data s') = entry_data e
                   /\ s' = set_display_data (display_data s') s
       end.
Proof.
  induction entries as [|[[p m] d] rest IH]; intros bs s Hnd Hd.
  - exists bs, s. simpl. repeat split.
  - inversion Hnd as [|? ? Hp Hnd']; subst. change (entry_pin (p, m, d)) with p in Hp.
    destruct (Hd (p, m, d) (or_introl eq_refl)) as [dd Edd]; simpl in Edd; subst d.
    assert (Hd' : forall e, In e rest -> exists d, entry_data e = Ok d)
      by (intros e He; apply Hd; right; exact He).
    set (f := button_fires t read bs (p, m, Ok dd)).
    assert (Hf : negb (read p) && last_button_states bs p
                 && negb (Qle_bool (t - last_button_time bs p) DEBOUNCE_TIME) = f) by reflexivity.

    set (bs1 := if f then Build_buttons_state m (upd (last_button_states bs) p (read p))
                              (upd (last_button_time bs) p t)
                else Build_buttons_state (current_mode bs) (upd (last_button_states bs) p (read p))
                       (last_button_time bs)).
    set (s1 := if f then set_display_data dd s else s).
    assert (Hstep : poll_buttons t read ((p, m, Ok dd) :: rest) bs s
                    = poll_buttons t read rest bs1 s1)
      by (simpl; rewrite Hf; unfold bs1, s1; destruct f; reflexivity).
    (* the other buttons see the same readings and times *)
    assert (Hsame : forall e, In e rest -> button_fires t read bs1 e = button_fires t read bs e).
    { intros e He. assert (Hne : entry_pin e <> p)
        by (intro E; apply Hp; rewrite <- E; apply (in_map entry_pin); exact He).
      unfold button_fires, bs1, upd.
      destruct f; simpl; rewrite (proj2 (Z.eqb_neq _ _) Hne); reflexivity. }
    destruct (IH bs1 s1 Hnd' Hd') as (bs' & s' & E & Hst & Htm & Hm).
    exists bs', s'. split.
    { etransitivity; [exact Hstep | exact E]. }
    rewrite (filter_ext_in _ _ rest Hsame) in Hm.
    split; [|split].
    + intro pin. rewrite Hst.
      change (existsb _ ((p, m, Ok dd) :: rest))
        with ((p =? pin) || existsb (fun e => entry_pin e =? pin) rest).
      destruct (existsb _ rest); [rewrite orb_true_r; reflexivity|rewrite orb_false_r].
      unfold bs1; destruct f; simpl; unfold upd;
        destruct (Z.eqb_spec pin p); destruct (Z.eqb_spec p pin); subst; try congruence; reflexivity.
    + intro pin. rewrite Htm.
      rewrite (existsb_ext_in_list _ (fun e => (entry_pin e =? pin) && button_fires t read bs e) rest)
        by (intros e He; rewrite Hsame by exact He; reflexivity).
      change (existsb _ ((p, m, Ok dd) :: rest))
        with (((p =? pin) && f) || existsb (fun e => (entry_pin e =? pin) && button_fires t read bs e) rest).
      destruct (existsb _ rest); [rewrite orb_true_r; reflexivity|rewrite orb_false_r].
      unfold bs1; destruct f; simpl; unfold upd;
        destruct (Z.eqb_spec pin p); destruct (Z.eqb_spec p pin); subst; try congruence; reflexivity.
    + unfold bs1, s1 in Hm. cbn [filter].
      change (button_fires t read bs (p, m, Ok dd)) with f. destruct f; simpl.
      * destruct (rev (filter (button_fires t read bs) rest)) as [|e es] eqn:Er; simpl.
        -- destruct Hm as [-> ->]. simpl. repeat split.
        -- destruct Hm as (Hm1 & Hm2 & Hm3). repeat split; auto.
      * exact Hm.
Qed.

Lemma image_1_loads (c : config) (color_rgb : Z * Z * Z) :
  exists d, load_binary_image_data c Image_1 color_rgb = Ok d.
Proof.
  unfold load_binary_image_data.
  destruct (decode_slices_spec c (scaled_color color_rgb)
              (match Image_1 with [] => 0 | row0 :: _ => Z.of_nat (length row0) end) Image_1)
    as (data & E & _).
  - vm_compute; discriminate.
  - intros row Hr. repeat (destruct Hr as [<-|Hr]; [vm_compute; discriminate|]). destruct Hr.
  - rewrite E. eexists; reflexivity.
Qed.

(** [check_buttons] (with a square frame that generates without error)
    always succeeds.  It stores the current reading of each of the three
    buttons as its last state and leaves other pins alone.  It stamps
    [current_time] on exactly the buttons that fire: a high-to-low
    transition more than [DEBOUNCE_TIME] after that button's last press.
    When several fire in one poll, the last in table order (circle, square,
    image) sets [current_mode] and [display_data].  When none fires, the
    mode and the display data are unchanged. *)
Theorem check_buttons_last_press_wins (c : config) (sq : list (list Z)) (current_time : Q)
    (read : Z -> bool) (bs : buttons_state) (s : state) :
  exists bs' s',
    check_buttons c (Ok sq) current_time read bs s = Ok (bs', s')
    /\ (forall pin, last_button_states bs' pin =
          if (pin =? BUTTON_CIRCLE) || (pin =? BUTTON_SQUARE) || (pin =? BUTTON_IMAGE)
          then read pin else last_button_states bs pin)
    /\ (forall pin, last_button_time bs' pin =
          if existsb (fun e => (entry_pin e =? pin) && button_fires current_time read bs e)
               (buttons_table c (Ok sq))
          then current_time else last_button_time bs pin)
    /\ match rev (filter (button_fires current_time read bs) (buttons_table c (Ok sq))) with
       | [] => current_mode bs' = current_mode bs /\ s' = s
       | e :: _ => current_mode bs' = entry_mode e /\ Ok (display_data s') = entry_data e
                   /\ s' = set_display_data (display_data s') s
       end.
Proof.
  destruct (poll_buttons_spec current_time read (buttons_table c (Ok sq)) bs s)
    as (bs' & s' & E & Hst & Htm & Hm).
  - unfold buttons_table, BUTTON_CIRCLE, BUTTON_SQUARE, BUTTON_IMAGE; cbn.
    repeat constructor; simpl; intuition discriminate.
  - intros e He. unfold buttons_table in He.
    destruct He as [<-|[<-|[<-|[]]]]; simpl.
    + eexists; reflexivity.
    + eexists; reflexivity.
    + apply image_1_loads.
  - exists bs', s'. split; [exact E|]. split; [|split; [exact Htm|exact Hm]].
    intro pin. rewrite Hst. unfold buttons_table, entry_pin; cbn [existsb fst].
    unfold BUTTON_CIRCLE, BUTTON_SQUARE, BUTTON_IMAGE. rewrite orb_false_r, (Z.eqb_sym 17), (Z.eqb_sym 27), (Z.eqb_sym 22), orb_assoc. reflexivity.
Qed.
